(** * Builder generator: a shallow embedding of [src/builderGenerator.ts]

    The generator reads the type aliases and interfaces of one TypeScript
    source file through the ts-morph API and derives, for each of them, the
    structure of a builder class and of its factory function.

    The ts-morph objects the code consults ([Type], [Symbol], declaration
    nodes, the source file) are modelled by the observations the code makes
    on them: every method the code calls is a field of a record.  Strings
    are [string] (byte strings); [console.warn] and thrown exceptions are
    made explicit in a small writer/exception monad. *)

From Stdlib Require Import Ascii String.
From stdpp Require Import base tactics option list strings gmap.

Local Open Scope string_scope.
Local Open Scope list_scope.

Set Warnings "-register-all,-clear-no-such-hyp".

(** * Part I: the program *)

(** ** The ts-morph objects, as the code observes them *)

Module TsMorph.

(** A [Type] answers the eight classification predicates of
    [builderParameterTypeMapper], [getText], [isArray] together with
    [getArrayElementType], [isUnion] together with [getUnionTypes], and
    [getProperties].  A property [Symbol] has a name and possibly a value
    declaration; the checker gives the type of the symbol at that node. *)
Inductive Type_ : Type :=
  MkType {
    getText : string;
    isString : bool;
    isNumber : bool;
    isLiteral : bool;
    isBoolean : bool;
    isUndefined : bool;
    isNull : bool;
    isAny : bool;
    isEnum : bool;
    getArrayElementType : option Type_;
    unionTypes : option (list Type_);
    getProperties : list Symbol }
with Symbol : Type :=
  MkSymbol {
    sym_getName : string;
    getValueDeclaration : option Node }
with Node : Type :=
  MkNode {
    typeAtLocation : Type_ }.

(** [isArray()] holds exactly when [getArrayElementType()] is defined. *)
Definition isArray (t : Type_) : bool :=
  match getArrayElementType t with Some _ => true | None => false end.

(** [isUnion()] and [getUnionTypes()]. *)
Definition isUnion (t : Type_) : bool :=
  match unionTypes t with Some _ => true | None => false end.

Definition getUnionTypes (t : Type_) : list Type_ :=
  match unionTypes t with Some ts => ts | None => [] end.

(** [symbol.getTypeAtLocation(node)] *)
Definition getTypeAtLocation (_ : Symbol) (n : Node) : Type_ :=
  typeAtLocation n.

(** The two kinds of declaration [generateBuilderFunc] accepts. *)
Inductive DeclKind := TypeAliasDeclaration | InterfaceDeclaration.

Record Declaration := MkDecl {
  decl_kind : DeclKind;
  getName : string;
  getType : Type_ }.

(** A source file is the sequence of its top-level statements. *)
Inductive Statement :=
| DeclStatement (d : Declaration)
| OtherStatement.

Abbreviation SourceFile := (list Statement).

Definition asKind (k : DeclKind) (s : Statement) : option Declaration :=
  match s with
  | DeclStatement d =>
      match k, decl_kind d with
      | TypeAliasDeclaration, TypeAliasDeclaration => Some d
      | InterfaceDeclaration, InterfaceDeclaration => Some d
      | _, _ => None
      end
  | OtherStatement => None
  end.

(** [sourceFile.getTypeAliases()] and [sourceFile.getInterfaces()]: the
    top-level statements of the given kind, in file order. *)
Definition getTypeAliases (sf : SourceFile) : list Declaration :=
  omap (asKind TypeAliasDeclaration) sf.

Definition getInterfaces (sf : SourceFile) : list Declaration :=
  omap (asKind InterfaceDeclaration) sf.

(** The structures handed to [addClass] and [addFunction]. *)
Inductive StructureKind := SKMethod | SKFunction | SKClass | SKConstructor.
Inductive Scope := Public | Private.

(** [statements] is either an array of statements or a single text. *)
Inductive Statements :=
| StatementList (l : list string)
| StatementText (s : string).

Record ParameterDeclarationStructure := MkParam {
  param_name : string;
  param_type : option string;
  param_hasQuestionToken : bool;
  param_initializer : option string;
  param_isReadonly : bool;
  param_scope : option Scope }.

Record MethodDeclarationStructure := MkMethod {
  method_kind : StructureKind;
  method_name : string;
  method_returnType : option string;
  method_typeParameters : list string;
  method_parameters : list ParameterDeclarationStructure;
  method_scope : Scope;
  method_statements : Statements }.

Record ConstructorDeclarationStructure := MkCtor {
  ctor_kind : StructureKind;
  ctor_parameters : list ParameterDeclarationStructure }.

Record FunctionDeclarationStructure := MkFunction {
  func_kind : StructureKind;
  func_name : string;
  func_isExported : bool;
  func_typeParameters : list string;
  func_returnType : string;
  func_parameters : list ParameterDeclarationStructure;
  func_statements : Statements }.

Record ClassDeclarationStructure := MkClass {
  class_kind : StructureKind;
  class_name : string;
  class_ctors : list ConstructorDeclarationStructure;
  class_methods : list MethodDeclarationStructure;
  class_isExported : bool }.

End TsMorph.
Export TsMorph.

(** ** Strings, the way the generator uses them *)

Module Text.

(** [Array.prototype.join]: no separator around a single element, the empty
    string for the empty array. *)
Fixpoint join (sep : string) (l : list string) : string :=
  match l with
  | [] => ""
  | [x] => x
  | x :: rest => x +:+ sep +:+ join sep rest
  end.

Definition is_upper (c : ascii) : bool :=
  (65 <=? nat_of_ascii c)%nat && (nat_of_ascii c <=? 90)%nat.

Definition is_lower (c : ascii) : bool :=
  (97 <=? nat_of_ascii c)%nat && (nat_of_ascii c <=? 122)%nat.

(** [toUpperCase] and [toLowerCase] on one ASCII character; the other
    bytes are left alone. *)
Definition toUpperCase (c : ascii) : ascii :=
  if is_lower c then ascii_of_nat (nat_of_ascii c - 32) else c.

Definition toLowerCase (c : ascii) : ascii :=
  if is_upper c then ascii_of_nat (nat_of_ascii c + 32) else c.

(** [string.charAt(0).toUpperCase() + string.slice(1)] *)
Definition capitalizeFirstLetter (s : string) : string :=
  match s with
  | "" => ""
  | String c rest => String (toUpperCase c) rest
  end.

(** *** The regular expression of the mapper

    The pattern is [import], an escaped opening parenthesis, a double
    quote, a starred class of everything but the double quote, a double
    quote and an escaped closing parenthesis, with the flags [g] and [i].

    A match at the head of [s] is: the letters of [import] in either case,
    an opening parenthesis, a double quote, the longest run of characters
    other than a double quote, a double quote, a closing parenthesis.
    Each function returns what is left of the text after the part it
    consumed, or [None] when the head of the text does not fit. *)

(** the keyword, under the [i] flag *)
Fixpoint matchIgnoreCase (kw s : string) : option string :=
  match kw, s with
  | "", _ => Some s
  | String k kw', String c s' =>
      if Ascii.eqb (toLowerCase c) k then matchIgnoreCase kw' s' else None
  | String _ _, "" => None
  end.

(** a literal piece of the pattern *)
Fixpoint matchExact (lit s : string) : option string :=
  match lit, s with
  | "", _ => Some s
  | String k lit', String c s' =>
      if Ascii.eqb c k then matchExact lit' s' else None
  | String _ _, "" => None
  end.

Definition quote : ascii := "034"%char.

(** The starred class and the quote after it: the star is greedy and cannot
    step over a double quote, so the closing quote of a match is the first
    one that follows. *)
Fixpoint matchUpToQuote (s : string) : option string :=
  match s with
  | "" => None
  | String c s' => if Ascii.eqb c quote then Some s' else matchUpToQuote s'
  end.

Definition matchImport (s : string) : option string :=
  r1 ← matchIgnoreCase "import" s;
  r2 ← matchExact (String "("%char (String quote "")) r1;
  r3 ← matchUpToQuote r2;
  matchExact ")" r3.

(** [text.replace(pattern, 'SchemaTypes')]: the text is
    scanned from the left; a match is replaced and the scan goes on after
    it, otherwise one character is copied.  [fuel] bounds the number of
    steps; the length of the text is always enough
    ([replaceFrom_enough_fuel]). *)
Fixpoint replaceFrom (fuel : nat) (s : string) : string :=
  match fuel with
  | O => s
  | S n =>
      match matchImport s with
      | Some rest => "SchemaTypes" +:+ replaceFrom n rest
      | None =>
          match s with
          | "" => ""
          | String c s' => String c (replaceFrom n s')
          end
      end
  end.

Definition replaceImports (s : string) : string :=
  replaceFrom (String.length s) s.

End Text.
Export Text.

(** ** Console output and exceptions *)

Module Effects.

(** What [getValueDeclarationOrThrow] throws. *)
Inductive Exn :=
| ValueDeclarationNotFound (symbolName : string).

Inductive Outcome (A : Type) :=
| Returned (a : A)
| Thrown (e : Exn).
Arguments Returned {A} a.
Arguments Thrown {A} e.

(** A computation yields the lines it wrote with [console.warn], in order,
    and either returns or throws. *)
Definition Eff (A : Type) : Type := (list string * Outcome A)%type.

Definition ret {A} (a : A) : Eff A := ([], Returned a).

Definition bind {A B} (m : Eff A) (f : A → Eff B) : Eff B :=
  match m with
  | (w, Returned a) => let '(w', o) := f a in (w ++ w', o)
  | (w, Thrown e) => (w, Thrown e)
  end.

Definition console_warn (msg : string) : Eff unit := ([msg], Returned tt).

Definition throw {A} (e : Exn) : Eff A := ([], Thrown e).

Definition warnings {A} (m : Eff A) : list string := fst m.
Definition outcome {A} (m : Eff A) : Outcome A := snd m.

End Effects.
Export Effects.

Declare Scope eff_scope.
Delimit Scope eff_scope with eff.
Notation "'let*' x ':=' m 'in' k" := (bind m (fun x => k))
  (at level 10, x name, m at level 100, k at level 200) : eff_scope.

(** ** The generator *)

Module Generator.

Local Open Scope eff_scope.

(** [symbol.getValueDeclarationOrThrow()] *)
Definition getValueDeclarationOrThrow (prop : Symbol) : Eff Node :=
  match getValueDeclaration prop with
  | Some decl => ret decl
  | None => throw (ValueDeclarationNotFound (sym_getName prop))
  end.

(** The array of the eight predicates, with [.some(Boolean)]. *)
Definition isPrimitive (resultType : Type_) : bool :=
  existsb (fun b : bool => b)
    [ isString resultType; isNumber resultType; isLiteral resultType;
      isBoolean resultType; isUndefined resultType; isNull resultType;
      isAny resultType; isEnum resultType ].

Definition builderParameterTypeMapper (subType : Type_) : string :=
  let isArray := isArray subType in
  let resultType :=
    match getArrayElementType subType with
    | Some elementType => elementType
    | None => subType
    end in
  let isPrimitive := isPrimitive resultType in
  let resultTypeStr := replaceImports (getText resultType) in
  let resultTypeStr :=
    if isPrimitive then resultTypeStr
    else "DeepPartial<" +:+ resultTypeStr +:+ ">" in
  if isArray then resultTypeStr +:+ "[]" else resultTypeStr.

(** [type.isUnion() ? type.getUnionTypes() : [type]] *)
Definition constituents (type : Type_) : list Type_ :=
  if isUnion type then getUnionTypes type else [type].

(** The alternatives of a setter's type parameter, before they are joined:
    the mapped constituents, without those that read [false], and with
    [true] replaced by [boolean]. *)
Definition alternatives (type : Type_) : list string :=
  (fun t : string => if decide (t = "true") then "boolean" else t)
    <$> filter (fun t : string => t ≠ "false")
          (builderParameterTypeMapper <$> constituents type).

Definition parametersType (type : Type_) : string :=
  join " | " (alternatives type).

(** The method pushed for one property. *)
Definition setterMethod (className propName : string) (type : Type_)
  : MethodDeclarationStructure :=
  {| method_kind := SKMethod;
     method_name := "with" +:+ capitalizeFirstLetter propName;
     method_returnType := Some className;
     method_typeParameters := [ "P extends " +:+ parametersType type ];
     method_parameters :=
       [ {| param_name := "val"; param_type := Some "P";
            param_hasQuestionToken := false; param_initializer := None;
            param_isReadonly := false; param_scope := None |} ];
     method_scope := Public;
     method_statements :=
       StatementList [ "this.obj." +:+ propName +:+ " = val;"; "return this;" ] |}.

(** The loop over the properties; [methods] is the array built so far. *)
Fixpoint settersLoop (className : string) (props : list Symbol)
    (methods : list MethodDeclarationStructure)
  : Eff (list MethodDeclarationStructure) :=
  match props with
  | [] => ret methods
  | prop :: rest =>
      let propName := sym_getName prop in
      if decide (propName = "__typename") then
        settersLoop className rest methods
      else
        let* decl := getValueDeclarationOrThrow prop in
        let type := getTypeAtLocation prop decl in
        settersLoop className rest
          (methods ++ [setterMethod className propName type])
  end.

Definition includeTypenameMethod (typeName : string)
  : MethodDeclarationStructure :=
  {| method_kind := SKMethod;
     method_name := "includeTypename";
     method_returnType := None;
     method_typeParameters := [];
     method_parameters := [];
     method_scope := Public;
     method_statements :=
       StatementList
         [ "// @ts-ignore";
           "this.obj.__typename = '" +:+ typeName +:+ "';";
           "return this;" ] |}.

Definition getMethod (objName typeName : string)
  : MethodDeclarationStructure :=
  {| method_kind := SKMethod;
     method_name := "get";
     method_returnType := Some ("SchemaTypes." +:+ typeName);
     method_typeParameters := [];
     method_parameters := [];
     method_scope := Public;
     method_statements :=
       StatementText
         ("return this." +:+ objName +:+ " as SchemaTypes." +:+ typeName +:+ ";") |}.

(** What [generateBuilderFunc] returns: the empty object, or both fields. *)
Record BuilderResult := MkResult {
  classObj : option ClassDeclarationStructure;
  builderFunc : option FunctionDeclarationStructure }.

Definition emptyResult : BuilderResult :=
  {| classObj := None; builderFunc := None |}.

Definition generateBuilderFunc (typeAlias : Declaration) : Eff BuilderResult :=
  let rootType := getType typeAlias in
  let props := getProperties rootType in
  if (length props <=? 0)%nat then ret emptyResult
  else if isUnion rootType then
    let* _ := console_warn
                ("Skipped type generation for union: " +:+ getName typeAlias) in
    ret emptyResult
  else
    let objName := "obj" in
    let typeName := getName typeAlias in
    let className := typeName +:+ "Builder" in
    let* methods := settersLoop className props [] in
    let methods := methods ++ [includeTypenameMethod typeName] in
    let methods := methods ++ [getMethod objName typeName] in
    let builderFunc :=
      {| func_kind := SKFunction;
         func_name := "a" +:+ className;
         func_isExported := true;
         func_typeParameters :=
           [ "O extends DeepPartial<SchemaTypes." +:+ typeName +:+ "> = {}" ];
         func_returnType := className;
         func_parameters :=
           [ {| param_name := "baseObj"; param_type := Some "O";
                param_hasQuestionToken := true; param_initializer := None;
                param_isReadonly := false; param_scope := None |} ];
         func_statements :=
           StatementText ("return new " +:+ className +:+ "(baseObj ?? {});") |} in
    let classObj :=
      {| class_kind := SKClass;
         class_name := className;
         class_ctors :=
           [ {| ctor_kind := SKConstructor;
                ctor_parameters :=
                  [ {| param_name := objName; param_type := None;
                       param_hasQuestionToken := false;
                       param_initializer :=
                         Some ("{} as DeepPartial<SchemaTypes." +:+ typeName +:+ ">");
                       param_isReadonly := true;
                       param_scope := Some Private |} ] |} ];
         class_methods := methods;
         class_isExported := true |} in
    ret {| classObj := Some classObj; builderFunc := Some builderFunc |}.

(** The two loops of [generateBuilders] that fill [classesAndFactories]. *)
Abbreviation ClassAndFactory :=
  (ClassDeclarationStructure * FunctionDeclarationStructure)%type.

Fixpoint forEachDeclaration (decls : list Declaration)
    (classesAndFactories : list ClassAndFactory) : Eff (list ClassAndFactory) :=
  match decls with
  | [] => ret classesAndFactories
  | typeAlias :: rest =>
      let* r := generateBuilderFunc typeAlias in
      match classObj r, builderFunc r with
      | Some c, Some f => forEachDeclaration rest (classesAndFactories ++ [(c, f)])
      | _, _ => forEachDeclaration rest classesAndFactories
      end
  end.

Definition generateBuilders (sourceFile : SourceFile) : Eff (list ClassAndFactory) :=
  let allTypes := getTypeAliases sourceFile in
  let allInterfaces := getInterfaces sourceFile in
  let* classesAndFactories := forEachDeclaration allTypes [] in
  forEachDeclaration allInterfaces classesAndFactories.

End Generator.
Export Generator.

(** ** What the emitted statements do

    The statements of the emitted methods are texts.  Their meaning is
    given for the forms the generator emits: a comment, the assignment of
    the parameter [val] or of a string literal to a field of [this.obj],
    and [return this;].  The accumulator [this.obj] is a finite map from
    field names to values. *)

Module Runtime.

Inductive Value :=
| VString (s : string)
| VOther (id : nat).

Inductive Stmt :=
| SComment
| SAssignParameter (field : string)
| SAssignString (field lit : string)
| SReturnThis.

(** The text before the first occurrence of [sep], and the text after it. *)
Fixpoint splitAtFirst (sep s : string) : option (string * string) :=
  match matchExact sep s with
  | Some rest => Some ("", rest)
  | None =>
      match s with
      | "" => None
      | String c s' =>
          match splitAtFirst sep s' with
          | Some (a, b) => Some (String c a, b)
          | None => None
          end
      end
  end.

(** A character that stands for itself between single quotes: not the
    quote, not the backslash, not a line break. *)
Definition isPlainChar (c : ascii) : bool :=
  negb (Ascii.eqb c "'" || Ascii.eqb c "\" || Ascii.eqb c "010"
        || Ascii.eqb c "013").

Fixpoint plainText (s : string) : bool :=
  match s with
  | "" => true
  | String c s' => isPlainChar c && plainText s'
  end.

(** After the opening quote: the characters of the literal, the closing
    quote, the semicolon, the end of the statement. *)
Fixpoint literalThenSemicolon (s : string) : option string :=
  match s with
  | "" => None
  | String c s' =>
      if Ascii.eqb c "'" then
        if String.eqb s' ";" then Some "" else None
      else if isPlainChar c then String c <$> literalThenSemicolon s'
      else None
  end.

Definition parseStatement (s : string) : option Stmt :=
  match matchExact "//" s with
  | Some _ => Some SComment
  | None =>
      if String.eqb s "return this;" then Some SReturnThis
      else
        r ← matchExact "this.obj." s;
        '(field, rhs) ← splitAtFirst " = " r;
        if String.eqb rhs "val;" then Some (SAssignParameter field)
        else
          r' ← matchExact "'" rhs;
          lit ← literalThenSemicolon r';
          Some (SAssignString field lit)
  end.

(** The statements of a method called with the argument [val] on a builder
    whose accumulator is [obj]: the accumulator when the method returns, or
    [None] when a statement has none of the forms above. *)
Fixpoint runStatements (stmts : list string) (val : Value)
    (obj : gmap string Value) : option (gmap string Value) :=
  match stmts with
  | [] => Some obj
  | s :: rest =>
      match parseStatement s with
      | Some SComment => runStatements rest val obj
      | Some (SAssignParameter field) =>
          runStatements rest val (<[field := val]> obj)
      | Some (SAssignString field lit) =>
          runStatements rest val (<[field := VString lit]> obj)
      | Some SReturnThis => Some obj
      | None => None
      end
  end.

Definition callMethod (m : MethodDeclarationStructure) (val : Value)
    (obj : gmap string Value) : option (gmap string Value) :=
  match method_statements m with
  | StatementList stmts => runStatements stmts val obj
  | StatementText _ => None
  end.

End Runtime.
Export Runtime.

(** * Part II: the notions the statements are written with *)

Module Notions.

(** No double quote in a text. *)
Fixpoint noQuote (s : string) : Prop :=
  match s with
  | "" => True
  | String c s' => c ≠ quote ∧ noQuote s'
  end.

(** A text with every ASCII capital replaced by its small letter. *)
Fixpoint lowerString (s : string) : string :=
  match s with
  | "" => ""
  | String c s' => String (toLowerCase c) (lowerString s')
  end.

(** One occurrence of the pattern: the keyword in any case, the quoted
    module path, the parentheses. *)
Definition IsImportRef (m : string) : Prop :=
  ∃ kw path,
    lowerString kw = "import" ∧ noQuote path ∧
    m = kw +:+ String "(" (String quote path) +:+ String quote ")".

(** ** The rewriting of module-qualified references, stated on its own

    [Rewrites s out]: [out] is [s] read from the left, every occurrence of
    the pattern met on the way replaced by [SchemaTypes], every other
    character kept. *)

Inductive Rewrites : string → string → Prop :=
| Rewrites_end :
    Rewrites "" ""
| Rewrites_ref (m rest out : string) :
    IsImportRef m →
    Rewrites rest out →
    Rewrites (m +:+ rest) ("SchemaTypes" +:+ out)
| Rewrites_copy (c : ascii) (s out : string) :
    (∀ m rest, IsImportRef m → String c s ≠ m +:+ rest) →
    Rewrites s out →
    Rewrites (String c s) (String c out).

(** The properties that get a setter: all but the discriminator tag. *)
Definition nonTagProps (props : list Symbol) : list Symbol :=
  filter (fun p => sym_getName p ≠ "__typename") props.

(** [m] is the setter the loop pushes for the property [p]. *)
Definition IsSetterFor (className : string) (p : Symbol)
    (m : MethodDeclarationStructure) : Prop :=
  ∃ decl, getValueDeclaration p = Some decl ∧
          m = setterMethod className (sym_getName p) (getTypeAtLocation p decl).

(** The first property the loop cannot resolve, if there is one. *)
Definition firstMissing (props : list Symbol) : option Symbol :=
  head (filter (fun p => getValueDeclaration p = None) (nonTagProps props)).

(** The setters of the properties met before the loop ends or throws. *)
Definition settersOf (className : string) (props : list Symbol)
  : list MethodDeclarationStructure :=
  omap (fun p =>
          decl ← getValueDeclaration p;
          Some (setterMethod className (sym_getName p) (getTypeAtLocation p decl)))
       (nonTagProps props).

Definition unionWarning (d : Declaration) : string :=
  "Skipped type generation for union: " +:+ getName d.

Definition builderClassName (d : Declaration) : string :=
  getName d +:+ "Builder".

(** The methods of the class built for [d]. *)
Definition methodsOf (d : Declaration) : list MethodDeclarationStructure :=
  settersOf (builderClassName d) (getProperties (getType d))
    ++ [includeTypenameMethod (getName d); getMethod "obj" (getName d)].

(** What one constituent contributes to the alternatives. *)
Definition contribution (t : Type_) : option string :=
  let r := builderParameterTypeMapper t in
  if decide (r = "false") then None
  else if decide (r = "true") then Some "boolean"
  else Some r.

(** A type is the literal [true] or [false]: ts-morph reports it as a
    literal, it is not an array, and it reads [true] or [false]. *)
Definition IsBooleanLiteral (b : bool) (t : Type_) : Prop :=
  getText t = (if b then "true" else "false") ∧
  isLiteral t = true ∧
  getArrayElementType t = None.

(** The statement is a declaration of the kind [k]. *)
Definition statementHasKind (k : DeclKind) (s : Statement) : bool :=
  match s with
  | DeclStatement d =>
      match decl_kind d, k with
      | TypeAliasDeclaration, TypeAliasDeclaration => true
      | InterfaceDeclaration, InterfaceDeclaration => true
      | _, _ => false
      end
  | OtherStatement => false
  end.

(** A class is built for [d]; a warning is written for [d]. *)
Definition isBuilt (d : Declaration) : bool :=
  negb (length (getProperties (getType d)) =? 0)%nat
  && negb (isUnion (getType d)).

Definition isWarned (d : Declaration) : bool :=
  negb (length (getProperties (getType d)) =? 0)%nat
  && isUnion (getType d).

End Notions.
Export Notions.

(** ** Sample declarations *)

Module Samples.

(** A type no predicate recognises: an object type, [unknown], [never]. *)
Definition plainType (text : string) (props : list Symbol) : Type_ :=
  {| getText := text;
     isString := false; isNumber := false; isLiteral := false;
     isBoolean := false; isUndefined := false; isNull := false;
     isAny := false; isEnum := false;
     getArrayElementType := None; unionTypes := None;
     getProperties := props |}.

Definition stringType : Type_ :=
  {| getText := "string";
     isString := true; isNumber := false; isLiteral := false;
     isBoolean := false; isUndefined := false; isNull := false;
     isAny := false; isEnum := false;
     getArrayElementType := None; unionTypes := None;
     getProperties := [] |}.

(** A literal type such as [true], [false] or ['red']. *)
Definition literalType (text : string) : Type_ :=
  {| getText := text;
     isString := false; isNumber := false; isLiteral := true;
     isBoolean := false; isUndefined := false; isNull := false;
     isAny := false; isEnum := false;
     getArrayElementType := None; unionTypes := None;
     getProperties := [] |}.

Definition arrayOf (element : Type_) : Type_ :=
  {| getText := getText element +:+ "[]";
     isString := false; isNumber := false; isLiteral := false;
     isBoolean := false; isUndefined := false; isNull := false;
     isAny := false; isEnum := false;
     getArrayElementType := Some element; unionTypes := None;
     getProperties := [] |}.

(** A union type, with the properties its members have in common. *)
Definition unionOf (text : string) (members : list Type_)
    (common : list Symbol) : Type_ :=
  {| getText := text;
     isString := false; isNumber := false; isLiteral := false;
     isBoolean := false; isUndefined := false; isNull := false;
     isAny := false; isEnum := false;
     getArrayElementType := None; unionTypes := Some members;
     getProperties := common |}.

(** [boolean] is the union of its two literals. *)
Definition booleanType : Type_ :=
  {| getText := "boolean";
     isString := false; isNumber := false; isLiteral := false;
     isBoolean := true; isUndefined := false; isNull := false;
     isAny := false; isEnum := false;
     getArrayElementType := None;
     unionTypes := Some [literalType "false"; literalType "true"];
     getProperties := [] |}.

(** A property declared in the source, and one that a mapped type made up. *)
Definition declaredProperty (name : string) (type : Type_) : Symbol :=
  {| sym_getName := name; getValueDeclaration := Some {| typeAtLocation := type |} |}.

Definition mappedProperty (name : string) : Symbol :=
  {| sym_getName := name; getValueDeclaration := None |}.

(** [type User = { __typename: 'User'; name: string; friend: User;
    tags: string[] }], the reference to [User] cut after one level. *)
Definition userProps : list Symbol :=
  [ declaredProperty "__typename" (literalType "'User'");
    declaredProperty "name" stringType;
    declaredProperty "friend" (plainType "User" []);
    declaredProperty "tags" (arrayOf stringType) ].

Definition userDecl : Declaration :=
  {| decl_kind := TypeAliasDeclaration; getName := "User";
     getType := plainType "User" userProps |}.

(** [type Contact = { email: string } | { phone: string }]: a union whose
    members have no property in common. *)
Definition contactDecl : Declaration :=
  {| decl_kind := TypeAliasDeclaration; getName := "Contact";
     getType :=
       unionOf "Contact"
         [ plainType "{ email: string; }" [declaredProperty "email" stringType];
           plainType "{ phone: string; }" [declaredProperty "phone" stringType] ]
         [] |}.

(** [type Pet = { name: string; claws: number } | { name: string }] *)
Definition petDecl : Declaration :=
  {| decl_kind := TypeAliasDeclaration; getName := "Pet";
     getType :=
       unionOf "Pet"
         [ plainType "Cat" [declaredProperty "name" stringType];
           plainType "Dog" [declaredProperty "name" stringType] ]
         [declaredProperty "name" stringType] |}.

(** [interface Empty {}] *)
Definition emptyDecl : Declaration :=
  {| decl_kind := InterfaceDeclaration; getName := "Empty";
     getType := plainType "Empty" [] |}.

(** [type Flags = Record<'debug', boolean>]: the property of a mapped type
    has no value declaration. *)
Definition flagsDecl : Declaration :=
  {| decl_kind := TypeAliasDeclaration; getName := "Flags";
     getType := plainType "Flags" [mappedProperty "debug"] |}.

(** What synthesis returns for [User]. *)
Definition userResult : BuilderResult :=
  Eval vm_compute in
    match generateBuilderFunc userDecl with
    | (_, Returned r) => r
    | (_, Thrown _) => emptyResult
    end.

Definition userClass : ClassDeclarationStructure :=
  Eval vm_compute in
    match classObj userResult with
    | Some c => c
    | None => MkClass SKClass "" [] [] false
    end.

(** [import(<quote>/app/schema<quote>).Foo], how the checker prints a type
    of another module. *)
Definition importedFoo : Type_ :=
  plainType ("import(" +:+ String quote "/app/schema" +:+ String quote ").Foo") [].

(** [type Never = { off: false }] *)
Definition offDecl : Declaration :=
  {| decl_kind := TypeAliasDeclaration; getName := "Off";
     getType := plainType "Off" [declaredProperty "off" (literalType "false")] |}.

Definition offResult : BuilderResult :=
  Eval vm_compute in
    match generateBuilderFunc offDecl with
    | (_, Returned r) => r
    | (_, Thrown _) => emptyResult
    end.

Definition offClass : ClassDeclarationStructure :=
  Eval vm_compute in
    match classObj offResult with
    | Some c => c
    | None => MkClass SKClass "" [] [] false
    end.

(** [interface Account { id: string }] *)
Definition accountDecl : Declaration :=
  {| decl_kind := InterfaceDeclaration; getName := "Account";
     getType := plainType "Account" [declaredProperty "id" stringType] |}.

(** A file with two interfaces, some other statement, and two aliases after
    them. *)
Definition sampleFile : SourceFile :=
  [ DeclStatement emptyDecl; DeclStatement accountDecl; OtherStatement;
    DeclStatement petDecl; DeclStatement userDecl ].

(** What the two loops return for the sample file. *)
Definition sampleOutput : list ClassAndFactory :=
  Eval vm_compute in
    match generateBuilders sampleFile with
    | (_, Returned l) => l
    | (_, Thrown _) => []
    end.

End Samples.
Export Samples.

(** ** The output stage of [generateBuilders]

    After the two loops, [generateBuilders] creates one source file per
    class, fills it, registers it in the index file and starts saving it;
    the input file is copied when a save has ended.  The calls made on the
    project are kept as a list, in program order; a promise is the save it
    waits for and the call chained to it with [then].  The functions of the
    [path] module are not part of the repository: they are parameters. *)

Module Output.

Inductive ImportStructure :=
| NamedImports (namedImports : list string) (moduleSpecifier : string)
| NamespaceImport (namespaceImport : string) (moduleSpecifier : string).

Inductive FileStatement :=
| TextStatement (text : string)
| ImportDeclaration (i : ImportStructure).

Inductive ProjectCall :=
| CreateDirectory (path : string)
| CreateSourceFile (path : string)
| AddStatements (path : string) (statements : list FileStatement)
| AddExportDeclaration (path : string) (moduleSpecifier : string)
| AddClass (path : string) (c : ClassDeclarationStructure)
| AddFunction (path : string) (f : FunctionDeclarationStructure)
| Save (path : string)
| CopyFile (src dst : string).

Record Promise := MkPromise {
  promise_save : string;
  promise_then : option ProjectCall }.

Section Paths.

Variable path_join : string → string → string.
Variable path_basename : string → string.
Variable path_basename_ext : string → string → string.
Variable path_extname : string → string.

(** The body of the callback given to [classesAndFactories.map]. *)
Definition writeClass (inputFilePath outputFilePath : string)
    (cf : ClassAndFactory) : list ProjectCall * Promise :=
  let fileName := path_basename inputFilePath in
  let fileNameWithoutExtension :=
    path_basename_ext inputFilePath (path_extname inputFilePath) in
  let indexFile := path_join outputFilePath "index.ts" in
  let '(classObj, builderFunc) := cf in
  let outFile := path_join outputFilePath (class_name classObj +:+ ".ts") in
  ([ CreateSourceFile outFile;
     AddStatements outFile
       [ TextStatement "/* eslint-disable */";
         ImportDeclaration (NamedImports ["DeepPartial"] "ts-essentials");
         ImportDeclaration
           (NamespaceImport "SchemaTypes" ("./" +:+ fileNameWithoutExtension)) ];
     AddExportDeclaration indexFile ("./" +:+ class_name classObj);
     AddClass outFile classObj;
     AddFunction outFile builderFunc;
     Save outFile ],
   {| promise_save := outFile;
      promise_then :=
        Some (CopyFile inputFilePath (outputFilePath +:+ "/" +:+ fileName)) |}).

(** From [classesAndFactories.map] to the argument of [Promise.all]. *)
Definition outputStage (inputFilePath outputFilePath : string)
    (classesAndFactories : list ClassAndFactory)
  : list ProjectCall * list Promise :=
  let indexFile := path_join outputFilePath "index.ts" in
  let written := writeClass inputFilePath outputFilePath <$> classesAndFactories in
  (concat (fst <$> written) ++ [Save indexFile],
   (snd <$> written) ++ [ {| promise_save := indexFile; promise_then := None |} ]).

(** [generateBuilders] as a whole, given the source file the project has
    read at [inputFilePath]: the calls made on the project, the warnings,
    and the promises handed to [Promise.all] unless a loop has thrown. *)
Definition runGenerateBuilders (inputFilePath outputFilePath : string)
    (sourceFile : SourceFile)
  : list ProjectCall * list string * Outcome (list Promise) :=
  let indexFile := path_join outputFilePath "index.ts" in
  let setup := [CreateDirectory outputFilePath; CreateSourceFile indexFile] in
  match generateBuilders sourceFile with
  | (w, Thrown e) => (setup, w, Thrown e)
  | (w, Returned classesAndFactories) =>
      let '(calls, promises) :=
        outputStage inputFilePath outputFilePath classesAndFactories in
      (setup ++ calls, w, Returned promises)
  end.

End Paths.

(** The paths a list of calls saves, and the copies a list of promises
    chains. *)
Definition savedPaths (calls : list ProjectCall) : list string :=
  omap (fun c => match c with Save p => Some p | _ => None end) calls.

Definition exportedModules (calls : list ProjectCall) : list string :=
  omap (fun c => match c with AddExportDeclaration _ m => Some m | _ => None end)
       calls.


End Output.
Export Output.

(** ** More notions *)

Module MoreNotions.

(** [generateBuilderFunc] throws for [d]. *)
Definition raises (d : Declaration) : Prop :=
  ∃ w e, generateBuilderFunc d = (w, Thrown e).







End MoreNotions.
Export MoreNotions.

(** ** More sample declarations *)

Module MoreSamples.

Definition userFactory : FunctionDeclarationStructure :=
  Eval vm_compute in
    match builderFunc userResult with
    | Some f => f
    | None => MkFunction SKFunction "" false [] "" [] (StatementText "")
    end.

(** [type PartialUser = Partial<{ __typename: 'User'; id: string;
    name: string }>]: every property of the mapped type lacks a value
    declaration. *)
Definition partialDecl : Declaration :=
  {| decl_kind := TypeAliasDeclaration; getName := "PartialUser";
     getType :=
       plainType "PartialUser"
         [ mappedProperty "__typename"; mappedProperty "id";
           mappedProperty "name" ] |}.

(** An interface first, then three aliases: [User] is built, [Pet] is
    skipped with a warning, the mapped type cannot be resolved. *)
Definition failingFile : SourceFile :=
  [ DeclStatement accountDecl; DeclStatement userDecl; DeclStatement petDecl;
    DeclStatement partialDecl ].

End MoreSamples.
Export MoreSamples.

(** * Part III: lemmas *)

(** ** Facts about the text functions *)

Module TextFacts.

Lemma append_cons (c : ascii) (s t : string) :
  String c s +:+ t = String c (s +:+ t).
Proof. reflexivity. Qed.

Lemma append_nil_l (s : string) : "" +:+ s = s.
Proof. reflexivity. Qed.

Lemma append_nil_r (s : string) : s +:+ "" = s.
Proof. induction s as [|c s IH]; [done|]. by rewrite append_cons, IH. Qed.

Lemma append_assoc (s t u : string) : (s +:+ t) +:+ u = s +:+ t +:+ u.
Proof.
  induction s as [|c s IH]; [done|]. by rewrite !append_cons, IH.
Qed.

Lemma length_append (s t : string) :
  String.length (s +:+ t) = String.length s + String.length t.
Proof.
  induction s as [|c s IH]; [done|]. rewrite append_cons. simpl. by rewrite IH.
Qed.

(** Appends in normal form: nested to the right, constructors outside. *)
Ltac string_norm :=
  repeat (rewrite append_assoc || rewrite append_cons || rewrite append_nil_l).

Lemma matchExact_spec (lit s r : string) :
  matchExact lit s = Some r ↔ s = lit +:+ r.
Proof.
  revert s. induction lit as [|k lit IH]; intros s; simpl.
  - rewrite append_nil_l. naive_solver.
  - rewrite append_cons. destruct s as [|c s]; [naive_solver|].
    destruct (Ascii.eqb_spec c k) as [->|Hne].
    + rewrite IH. naive_solver.
    + naive_solver.
Qed.

Lemma matchIgnoreCase_spec (kw s r : string) :
  matchIgnoreCase kw s = Some r ↔ ∃ k, s = k +:+ r ∧ lowerString k = kw.
Proof.
  revert s. induction kw as [|k kw IH]; intros s; simpl.
  - split.
    + intros [= ->]. by exists "".
    + intros ([|c k'] & -> & Hk); [done|discriminate].
  - destruct s as [|c s].
    + split; [done|]. intros ([|c k'] & Hs & Hk); discriminate.
    + destruct (Ascii.eqb_spec (toLowerCase c) k) as [<-|Hne].
      * rewrite IH. split.
        -- intros (k' & -> & <-). by exists (String c k').
        -- intros ([|c' k'] & Hs & Hk); [discriminate|].
           rewrite append_cons in Hs. simplify_eq/=. by exists k'.
      * split; [done|]. intros ([|c' k'] & Hs & Hk); [discriminate|].
        rewrite append_cons in Hs. simplify_eq/=.
Qed.

Lemma matchUpToQuote_spec (s r : string) :
  matchUpToQuote s = Some r ↔ ∃ p, noQuote p ∧ s = p +:+ String quote r.
Proof.
  induction s as [|c s IH]; simpl.
  - split; [done|]. intros ([|c p] & _ & Hs); discriminate.
  - destruct (Ascii.eqb_spec c quote) as [->|Hne].
    + split.
      * intros [= ->]. by exists "".
      * intros ([|c p] & Hp & Hs).
        -- rewrite append_nil_l in Hs. by simplify_eq.
        -- rewrite append_cons in Hs. simplify_eq/=. naive_solver.
    + rewrite IH. split.
      * intros (p & Hp & ->). exists (String c p). by rewrite append_cons.
      * intros ([|c' p] & Hp & Hs).
        -- rewrite append_nil_l in Hs. by simplify_eq.
        -- rewrite append_cons in Hs. simplify_eq/=. exists p. naive_solver.
Qed.

Lemma matchImport_spec (s rest : string) :
  matchImport s = Some rest ↔ ∃ m, IsImportRef m ∧ s = m +:+ rest.
Proof.
  unfold matchImport, IsImportRef. split.
  - intros H.
    apply bind_Some in H as (r1 & E1 & H).
    apply bind_Some in H as (r2 & E2 & H).
    apply bind_Some in H as (r3 & E3 & H).
    apply matchIgnoreCase_spec in E1 as (kw & -> & Hkw).
    apply matchExact_spec in E2 as ->.
    apply matchUpToQuote_spec in E3 as (p & Hp & ->).
    apply matchExact_spec in H as ->.
    eexists. split; [exists kw, p; done|].
    by string_norm.
  - intros (m & (kw & p & Hkw & Hp & ->) & ->).
    apply bind_Some.
    exists (String "(" (String quote "") +:+ p +:+ String quote (")" +:+ rest)).
    split.
    { apply matchIgnoreCase_spec. exists kw. split; [|done]. by string_norm. }
    apply bind_Some. exists (p +:+ String quote (")" +:+ rest)).
    split; [by apply matchExact_spec|].
    apply bind_Some. exists (")" +:+ rest).
    split; [apply matchUpToQuote_spec; eauto|].
    by apply matchExact_spec.
Qed.

Lemma IsImportRef_length (m : string) :
  IsImportRef m → 0 < String.length m.
Proof.
  intros (kw & p & Hkw & _ & ->). destruct kw; [discriminate|].
  rewrite append_cons. simpl. lia.
Qed.

Lemma matchImport_shorter (s rest : string) :
  matchImport s = Some rest → String.length rest < String.length s.
Proof.
  intros (m & Hm%IsImportRef_length & ->)%matchImport_spec.
  rewrite length_append. lia.
Qed.

(** The length of the text is enough fuel: more makes no difference. *)
Lemma replaceFrom_enough_fuel (fuel : nat) (s : string) :
  (String.length s ≤ fuel)%nat →
  replaceFrom fuel s = replaceFrom (String.length s) s.
Proof.
  revert s. induction (lt_wf fuel) as [fuel _ IH]. intros s Hle.
  destruct s as [|c s].
  { destruct fuel; done. }
  change (String.length (String c s)) with (S (String.length s)) in *.
  destruct fuel as [|fuel]; [lia|].
  simpl. destruct (matchImport (String c s)) as [rest|] eqn:E.
  - apply matchImport_shorter in E.
    change (String.length (String c s)) with (S (String.length s)) in E.
    rewrite (IH fuel) by lia.
    by rewrite (IH (String.length s)) by lia.
  - f_equal. apply IH; lia.
Qed.

Lemma replaceImports_nil : replaceImports "" = "".
Proof. reflexivity. Qed.

Lemma replaceImports_match (s rest : string) :
  matchImport s = Some rest →
  replaceImports s = "SchemaTypes" +:+ replaceImports rest.
Proof.
  intros E. pose proof (matchImport_shorter _ _ E) as Hlt.
  unfold replaceImports. destruct (String.length s) as [|n] eqn:Hn; [lia|].
  simpl. rewrite E. by rewrite replaceFrom_enough_fuel by lia.
Qed.

Lemma replaceImports_copy (c : ascii) (s : string) :
  matchImport (String c s) = None →
  replaceImports (String c s) = String c (replaceImports s).
Proof.
  intros E. unfold replaceImports.
  change (String.length (String c s)) with (S (String.length s)).
  simpl. by rewrite E.
Qed.

End TextFacts.
Export TextFacts.

(** ** The scanner and the stated rewriting agree *)

Module Rewriting.

Lemma matchImport_None (s : string) :
  matchImport s = None ↔ ∀ m rest, IsImportRef m → s ≠ m +:+ rest.
Proof.
  split.
  - intros E m rest Hm ->.
    assert (matchImport (m +:+ rest) = Some rest) as E'
      by (apply matchImport_spec; eauto).
    congruence.
  - intros H. destruct (matchImport s) as [rest|] eqn:E; [|done].
    apply matchImport_spec in E as (m & Hm & ->). by destruct (H m rest).
Qed.

Lemma replaceImports_Rewrites (s : string) : Rewrites s (replaceImports s).
Proof.
  remember (String.length s) as n eqn:Hn. revert s Hn.
  induction (lt_wf n) as [n _ IH]. intros s ->.
  destruct (matchImport s) as [rest|] eqn:E.
  - rewrite (replaceImports_match _ _ E).
    pose proof (matchImport_shorter _ _ E) as Hlt.
    apply matchImport_spec in E as (m & Hm & ->).
    apply Rewrites_ref; [done|]. by eapply IH.
  - destruct s as [|c s]; [constructor|].
    rewrite (replaceImports_copy _ _ E).
    apply Rewrites_copy; [by apply matchImport_None|].
    eapply IH; [|done]. simpl. lia.
Qed.

Lemma Rewrites_replaceImports (s out : string) :
  Rewrites s out → out = replaceImports s.
Proof.
  induction 1 as [|m rest out Hm _ ->|c s out Hno _ ->].
  - done.
  - symmetry. apply replaceImports_match, matchImport_spec. eauto.
  - symmetry. by apply replaceImports_copy, matchImport_None.
Qed.

(** A text without a double quote has no occurrence of the pattern: it is
    left as it is. *)
Lemma noQuote_append (s t : string) : noQuote (s +:+ t) ↔ noQuote s ∧ noQuote t.
Proof.
  induction s as [|c s IH]; [rewrite append_nil_l; naive_solver|].
  rewrite append_cons. simpl. rewrite IH. naive_solver.
Qed.

Lemma replaceImports_noQuote (s : string) : noQuote s → replaceImports s = s.
Proof.
  induction s as [|c s IH]; [done|]. intros Hs.
  rewrite replaceImports_copy; [by rewrite IH by apply Hs|].
  apply matchImport_None. intros m rest (kw & p & _ & _ & ->) E.
  rewrite E in Hs. apply noQuote_append in Hs as [Hs _].
  apply noQuote_append in Hs as [_ Hs]. simpl in Hs. naive_solver.
Qed.

End Rewriting.
Export Rewriting.

(** ** Facts about the generator *)

Module GeneratorFacts.

Lemma nonTagProps_cons_tag (p : Symbol) (props : list Symbol) :
  sym_getName p = "__typename" → nonTagProps (p :: props) = nonTagProps props.
Proof. intros H. unfold nonTagProps. by rewrite filter_cons_False by naive_solver. Qed.

Lemma nonTagProps_cons_field (p : Symbol) (props : list Symbol) :
  sym_getName p ≠ "__typename" →
  nonTagProps (p :: props) = p :: nonTagProps props.
Proof. intros H. unfold nonTagProps. by rewrite filter_cons_True. Qed.

Lemma settersLoop_eq (className : string) (props : list Symbol)
    (methods : list MethodDeclarationStructure) :
  settersLoop className props methods =
    match firstMissing props with
    | Some p => ([], Thrown (ValueDeclarationNotFound (sym_getName p)))
    | None => ([], Returned (methods ++ settersOf className props))
    end.
Proof.
  revert methods. induction props as [|p props IH]; intros methods.
  { simpl. unfold ret. by rewrite app_nil_r. }
  simpl. case_decide as Htag.
  - rewrite IH. unfold firstMissing, settersOf.
    by rewrite nonTagProps_cons_tag.
  - unfold firstMissing, settersOf. rewrite nonTagProps_cons_field by done.
    unfold getValueDeclarationOrThrow.
    destruct (getValueDeclaration p) as [decl|] eqn:Hdecl.
    + rewrite filter_cons_False by naive_solver.
      simpl. rewrite IH, Hdecl. unfold firstMissing, settersOf.
      destruct (head _); [done|]. simpl. by rewrite <- app_assoc.
    + by rewrite filter_cons_True.
Qed.

Lemma firstMissing_None (props : list Symbol) :
  firstMissing props = None ↔
  Forall (fun p => is_Some (getValueDeclaration p)) (nonTagProps props).
Proof.
  unfold firstMissing. rewrite head_None, Forall_forall. split.
  - intros Hnil p Hp. destruct (getValueDeclaration p) eqn:E; [done|].
    assert (p ∈ filter (λ p, getValueDeclaration p = None) (nonTagProps props))
      as Hin by (apply list_elem_of_filter; done).
    rewrite Hnil in Hin. by apply not_elem_of_nil in Hin.
  - intros Hall.
    destruct (filter _ (nonTagProps props)) as [|p l] eqn:E; [done|].
    assert (p ∈ p :: l) as Hin by left. rewrite <- E in Hin.
    apply list_elem_of_filter in Hin as [Hnone Hp].
    destruct (Hall p Hp) as [? ?]. congruence.
Qed.

Lemma firstMissing_Some (props : list Symbol) (p : Symbol) :
  firstMissing props = Some p →
  p ∈ nonTagProps props ∧ getValueDeclaration p = None.
Proof.
  unfold firstMissing. intros H%head_Some_elem_of.
  apply list_elem_of_filter in H. naive_solver.
Qed.

Lemma settersOf_Forall2 (className : string) (props : list Symbol) :
  Forall (fun p => is_Some (getValueDeclaration p)) (nonTagProps props) →
  Forall2 (IsSetterFor className) (nonTagProps props) (settersOf className props).
Proof.
  unfold settersOf. induction 1 as [|p ps [decl Hdecl] _ IH]; [constructor|].
  simpl. rewrite Hdecl. simpl. constructor; [|done]. by exists decl.
Qed.

End GeneratorFacts.
Export GeneratorFacts.

(** ** The four ways [generateBuilderFunc] can end *)

Module Synthesis.

Lemma generateBuilderFunc_no_props (d : Declaration) :
  getProperties (getType d) = [] →
  generateBuilderFunc d = ([], Returned emptyResult).
Proof. intros H. unfold generateBuilderFunc. by rewrite H. Qed.

Lemma generateBuilderFunc_union (d : Declaration) :
  getProperties (getType d) ≠ [] →
  isUnion (getType d) = true →
  generateBuilderFunc d = ([unionWarning d], Returned emptyResult).
Proof.
  intros Hprops Hunion. unfold generateBuilderFunc.
  destruct (getProperties (getType d)); [done|]. simpl. by rewrite Hunion.
Qed.

Lemma generateBuilderFunc_throws (d : Declaration) (p : Symbol) :
  getProperties (getType d) ≠ [] →
  isUnion (getType d) = false →
  firstMissing (getProperties (getType d)) = Some p →
  generateBuilderFunc d = ([], Thrown (ValueDeclarationNotFound (sym_getName p))).
Proof.
  intros Hprops Hunion Hmiss. unfold generateBuilderFunc.
  rewrite settersLoop_eq, Hmiss, Hunion.
  by destruct (getProperties (getType d)).
Qed.

Lemma generateBuilderFunc_builds (d : Declaration) :
  getProperties (getType d) ≠ [] →
  isUnion (getType d) = false →
  firstMissing (getProperties (getType d)) = None →
  ∃ c f,
    generateBuilderFunc d
      = ([], Returned {| classObj := Some c; builderFunc := Some f |}) ∧
    class_name c = builderClassName d ∧
    class_methods c = methodsOf d ∧
    func_name f = "a" +:+ builderClassName d.
Proof.
  intros Hprops Hunion Hmiss. unfold generateBuilderFunc.
  rewrite settersLoop_eq, Hmiss, Hunion.
  destruct (getProperties (getType d)) eqn:E; [done|]. simpl.
  eexists _, _. split; [reflexivity|]. simpl. unfold methodsOf.
  rewrite E. by rewrite <- app_assoc.
Qed.

(** The outcome decides the case. *)
Lemma generateBuilderFunc_returned (d : Declaration) (w : list string)
    (r : BuilderResult) :
  generateBuilderFunc d = (w, Returned r) →
  (r = emptyResult ∧
     (getProperties (getType d) = [] ∨ isUnion (getType d) = true)) ∨
  (∃ c f, r = {| classObj := Some c; builderFunc := Some f |} ∧ w = [] ∧
     getProperties (getType d) ≠ [] ∧ isUnion (getType d) = false ∧
     firstMissing (getProperties (getType d)) = None ∧
     class_name c = builderClassName d ∧
     class_methods c = methodsOf d ∧
     func_name f = "a" +:+ builderClassName d).
Proof.
  intros H.
  destruct (decide (getProperties (getType d) = [])) as [Hprops|Hprops].
  { rewrite generateBuilderFunc_no_props in H by done. left. naive_solver. }
  destruct (isUnion (getType d)) eqn:Hunion.
  { rewrite generateBuilderFunc_union in H by done. left. naive_solver. }
  destruct (firstMissing (getProperties (getType d))) as [p|] eqn:Hmiss.
  { rewrite (generateBuilderFunc_throws d p) in H by done. discriminate. }
  destruct (generateBuilderFunc_builds d) as (c & f & E & ? & ? & ?); [done..|].
  rewrite E in H. injection H as <- <-. right. by exists c, f.
Qed.

End Synthesis.
Export Synthesis.

(** ** The monad and the two loops of [generateBuilders] *)

Section Enumeration.

Local Open Scope eff_scope.

Lemma bind_assoc {A B C} (m : Eff A) (f : A → Eff B) (g : B → Eff C) :
  bind (bind m f) g = bind m (fun a => bind (f a) g).
Proof.
  destruct m as [w [a|e]]; [|done]. simpl.
  destruct (f a) as [w' [b|e]]; simpl; [|done].
  destruct (g b) as [w'' o]. by rewrite app_assoc.
Qed.

Lemma bind_returned {A B} (w : list string) (a : A) (f : A → Eff B) :
  bind (w, Returned a) f = let '(w', o) := f a in (w ++ w', o).
Proof. reflexivity. Qed.

Lemma bind_thrown {A B} (w : list string) (e : Exn) (f : A → Eff B) :
  bind (w, Thrown e) f = (w, Thrown e).
Proof. reflexivity. Qed.

Lemma bind_ret_l {A B} (a : A) (f : A → Eff B) : bind (ret a) f = f a.
Proof. unfold ret. simpl. by destruct (f a). Qed.

(** One loop over two arrays in a row, or two loops. *)
Lemma forEachDeclaration_app (l1 l2 : list Declaration)
    (acc : list ClassAndFactory) :
  forEachDeclaration (l1 ++ l2) acc =
    let* acc' := forEachDeclaration l1 acc in forEachDeclaration l2 acc'.
Proof.
  revert acc. induction l1 as [|d l1 IH]; intros acc.
  - change (forEachDeclaration [] acc) with (ret acc).
    by rewrite bind_ret_l.
  - change (forEachDeclaration ((d :: l1) ++ l2) acc) with
      (let* r := generateBuilderFunc d in
       match classObj r, builderFunc r with
       | Some c, Some f => forEachDeclaration (l1 ++ l2) (acc ++ [(c, f)])
       | _, _ => forEachDeclaration (l1 ++ l2) acc
       end).
    change (forEachDeclaration (d :: l1) acc) with
      (let* r := generateBuilderFunc d in
       match classObj r, builderFunc r with
       | Some c, Some f => forEachDeclaration l1 (acc ++ [(c, f)])
       | _, _ => forEachDeclaration l1 acc
       end).
    rewrite bind_assoc.
    destruct (generateBuilderFunc d) as [w [r|e]]; [|done].
    rewrite !bind_returned.
    destruct (classObj r), (builderFunc r); by rewrite IH.
Qed.

Lemma declarations_in_file_order (k : DeclKind) (sf : SourceFile) :
  DeclStatement <$> omap (asKind k) sf
    = filter (fun s => statementHasKind k s = true) sf.
Proof.
  induction sf as [|s sf IH]; [done|].
  destruct (statementHasKind k s) eqn:E.
  - rewrite filter_cons_True by done.
    destruct s as [[kd name type]|]; [|done].
    destruct k, kd; try discriminate; simpl; by rewrite <- IH.
  - rewrite filter_cons_False by (rewrite E; done).
    destruct s as [[kd name type]|]; [|done].
    destruct k, kd; try discriminate; simpl; by rewrite <- IH.
Qed.

Lemma forEachDeclaration_cons (d : Declaration) (decls : list Declaration)
    (acc : list ClassAndFactory) :
  forEachDeclaration (d :: decls) acc =
    let* r := generateBuilderFunc d in
    match classObj r, builderFunc r with
    | Some c, Some f => forEachDeclaration decls (acc ++ [(c, f)])
    | _, _ => forEachDeclaration decls acc
    end.
Proof. reflexivity. Qed.

Lemma flags_no_props (d : Declaration) :
  getProperties (getType d) = [] → isBuilt d = false ∧ isWarned d = false.
Proof. intros H. unfold isBuilt, isWarned. by rewrite H. Qed.

Lemma flags_union (d : Declaration) :
  getProperties (getType d) ≠ [] → isUnion (getType d) = true →
  isBuilt d = false ∧ isWarned d = true.
Proof.
  intros Hp Hu. unfold isBuilt, isWarned. rewrite Hu.
  by destruct (getProperties (getType d)).
Qed.

Lemma flags_record (d : Declaration) :
  getProperties (getType d) ≠ [] → isUnion (getType d) = false →
  isBuilt d = true ∧ isWarned d = false.
Proof.
  intros Hp Hu. unfold isBuilt, isWarned. rewrite Hu.
  by destruct (getProperties (getType d)).
Qed.

(** What the loop has pushed and written when it ends without throwing. *)
Lemma forEachDeclaration_returned (decls : list Declaration)
    (acc : list ClassAndFactory) (w : list string) (l : list ClassAndFactory) :
  forEachDeclaration decls acc = (w, Returned l) →
  ∃ l', l = acc ++ l' ∧
    (fun cf => class_name cf.1) <$> l'
      = builderClassName <$> filter (fun d => isBuilt d = true) decls ∧
    w = unionWarning <$> filter (fun d => isWarned d = true) decls.
Proof.
  revert acc w l. induction decls as [|d decls IH]; intros acc w l H.
  { injection H as <- <-. exists []. by rewrite app_nil_r. }
  rewrite forEachDeclaration_cons in H.
  destruct (decide (getProperties (getType d) = [])) as [Hprops|Hprops].
  { destruct (flags_no_props d Hprops) as [Hb Hw].
    rewrite generateBuilderFunc_no_props, bind_returned in H by done.
    simpl in H. destruct (forEachDeclaration decls acc) as [w' o] eqn:E.
    injection H as <- ->. apply IH in E as (l' & -> & Hn & ->).
    exists l'. by rewrite !filter_cons_False by congruence. }
  destruct (isUnion (getType d)) eqn:Hunion.
  { destruct (flags_union d Hprops Hunion) as [Hb Hw].
    rewrite generateBuilderFunc_union, bind_returned in H by done.
    simpl in H. destruct (forEachDeclaration decls acc) as [w' o] eqn:E.
    injection H as <- ->. apply IH in E as (l' & -> & Hn & ->).
    exists l'. rewrite filter_cons_False by congruence.
    by rewrite filter_cons_True by done. }
  destruct (flags_record d Hprops Hunion) as [Hb Hw].
  destruct (firstMissing (getProperties (getType d))) as [p|] eqn:Hmiss.
  { rewrite (generateBuilderFunc_throws d p) in H by done. discriminate. }
  destruct (generateBuilderFunc_builds d) as (c & f & E & Hc & _); [done..|].
  rewrite E, bind_returned in H. simpl in H.
  destruct (forEachDeclaration decls (acc ++ [(c, f)])) as [w' o] eqn:E'.
  injection H as <- ->. apply IH in E' as (l' & -> & Hn & ->).
  exists ((c, f) :: l'). rewrite <- app_assoc. split; [done|].
  rewrite filter_cons_True by done.
  rewrite filter_cons_False by congruence.
  rewrite !fmap_cons, Hn. simpl. by rewrite Hc.
Qed.

End Enumeration.

(** ** The alternatives of an accepted type *)

Section AcceptedType.

Lemma alternatives_omap (type : Type_) :
  alternatives type = omap contribution (constituents type).
Proof.
  unfold alternatives. induction (constituents type) as [|t l IH]; [done|].
  rewrite fmap_cons. unfold contribution at 1. simpl omap.
  destruct (decide (builderParameterTypeMapper t = "false")) as [Hf|Hf].
  - by rewrite filter_cons_False by naive_solver.
  - rewrite filter_cons_True by done. rewrite fmap_cons, IH.
    by destruct (decide (builderParameterTypeMapper t = "true")).
Qed.

Lemma contribution_neither (t : Type_) (a : string) :
  contribution t = Some a → a ≠ "true" ∧ a ≠ "false".
Proof.
  unfold contribution. repeat case_decide; intros [= <-]; done.
Qed.

Lemma contribution_kept (t : Type_) :
  builderParameterTypeMapper t ≠ "true" →
  builderParameterTypeMapper t ≠ "false" →
  contribution t = Some (builderParameterTypeMapper t).
Proof. intros Ht Hf. unfold contribution. by rewrite !decide_False by done. Qed.

Lemma kept_in_alternatives (type t : Type_) :
  t ∈ constituents type →
  builderParameterTypeMapper t ≠ "true" →
  builderParameterTypeMapper t ≠ "false" →
  builderParameterTypeMapper t ∈ alternatives type.
Proof.
  intros Hin Ht Hf. rewrite alternatives_omap. apply list_elem_of_omap.
  exists t. split; [done|]. by apply contribution_kept.
Qed.

Lemma mapper_array_suffix (t e : Type_) :
  getArrayElementType t = Some e →
  ∃ s, builderParameterTypeMapper t = s +:+ "[]".
Proof.
  intros H. unfold builderParameterTypeMapper, isArray. rewrite H. eauto.
Qed.

Lemma array_suffix_not_boolean_literal (s : string) :
  s +:+ "[]" ≠ "true" ∧ s +:+ "[]" ≠ "false".
Proof.
  split; destruct s as [|? [|? [|? [|? [|? [|? ?]]]]]]; discriminate.
Qed.

Lemma wrap_changes_text (s : string) : "DeepPartial<" +:+ s +:+ ">" ≠ s.
Proof.
  intros H. apply (f_equal String.length) in H.
  rewrite !length_append in H. simpl in H. lia.
Qed.

End AcceptedType.

Lemma isPrimitive_literal (t : Type_) : isLiteral t = true → isPrimitive t = true.
Proof.
  intros H. unfold isPrimitive. simpl. rewrite H.
  by destruct (isString t), (isNumber t).
Qed.

Lemma mapper_boolean_literal (b : bool) (t : Type_) :
  IsBooleanLiteral b t →
  builderParameterTypeMapper t = if b then "true" else "false".
Proof.
  intros (Htext & Hlit & Harr). unfold builderParameterTypeMapper, isArray.
  rewrite Harr, (isPrimitive_literal t Hlit), Htext. by destruct b.
Qed.

(** ** The tag-injection method at run time *)

Module RuntimeFacts.

Lemma literalThenSemicolon_plain (lit : string) :
  plainText lit = true → literalThenSemicolon (lit +:+ "';") = Some lit.
Proof.
  induction lit as [|c lit IH]; [done|].
  rewrite append_cons. simpl. intros [Hc Hlit]%andb_true_iff.
  rewrite Hc, (IH Hlit).
  destruct (Ascii.eqb_spec c "'") as [->|_]; [done|]. done.
Qed.

Lemma parse_typename_assignment (typeName : string) :
  plainText typeName = true →
  parseStatement ("this.obj.__typename = '" +:+ typeName +:+ "';")
    = Some (SAssignString "__typename" typeName).
Proof.
  intros H. string_norm. unfold parseStatement. simpl.
  by rewrite literalThenSemicolon_plain.
Qed.

Lemma callMethod_includeTypename (typeName : string) (val : Value)
    (obj : gmap string Value) :
  plainText typeName = true →
  callMethod (includeTypenameMethod typeName) val obj
    = Some (<["__typename" := VString typeName]> obj).
Proof.
  intros H. unfold callMethod. simpl method_statements.
  unfold runStatements.
  change (parseStatement "// @ts-ignore") with (Some SComment).
  rewrite (parse_typename_assignment _ H).
  by change (parseStatement "return this;") with (Some SReturnThis).
Qed.

End RuntimeFacts.
Export RuntimeFacts.

Lemma toUpperCase_underscore (c : ascii) : toUpperCase c = "_"%char → c = "_"%char.
Proof.
  destruct c as [[] [] [] [] [] [] [] []]; intros H; vm_compute in H;
    try discriminate H; reflexivity.
Qed.

Lemma capitalizeFirstLetter_typename (name : string) :
  capitalizeFirstLetter name = "__typename" → name = "__typename".
Proof.
  destruct name as [|c name]; [done|]. simpl. intros [= Hc ->].
  by rewrite (toUpperCase_underscore c Hc).
Qed.

Lemma methodsOf_cases (d : Declaration) (m : MethodDeclarationStructure) :
  m ∈ methodsOf d →
  (∃ p, p ∈ getProperties (getType d) ∧ sym_getName p ≠ "__typename" ∧
        IsSetterFor (getName d +:+ "Builder") p m) ∨
  m = includeTypenameMethod (getName d) ∨
  m = getMethod "obj" (getName d).
Proof.
  unfold methodsOf, builderClassName, settersOf.
  intros [Hin|Hin]%elem_of_app.
  - left. apply list_elem_of_omap in Hin as (p & Hp & Hm).
    apply list_elem_of_filter in Hp as [Hname Hp].
    exists p. split_and!; [done..|].
    destruct (getValueDeclaration p) as [decl|] eqn:Hdecl; [|done].
    simpl in Hm. injection Hm as <-. by exists decl.
  - right. apply elem_of_cons in Hin as [->|Hin]; [by left|].
    apply list_elem_of_singleton in Hin as ->. by right.
Qed.

(** * Part IV: the claims *)

(** ** The claims: skipping, failing, the shape of the class *)

(** C1, as the code has it: synthesis returns the empty result exactly when
    the declaration has no property or its root type is a union; without
    properties nothing is written to the console, whether or not the root
    type is a union; a union root type with at least one property writes
    exactly one warning, which ends with the name of the declaration. *)
Theorem C1_skip_conditions (d : Declaration) :
  ((∃ w, generateBuilderFunc d = (w, Returned emptyResult)) ↔
     getProperties (getType d) = [] ∨ isUnion (getType d) = true) ∧
  (getProperties (getType d) = [] →
     generateBuilderFunc d = ([], Returned emptyResult)) ∧
  (getProperties (getType d) ≠ [] → isUnion (getType d) = true →
     generateBuilderFunc d =
       (["Skipped type generation for union: " +:+ getName d],
        Returned emptyResult)).
Proof.
  split_and!.
  - split.
    + intros [w H]. apply generateBuilderFunc_returned in H as [[_ H]|H]; [done|].
      destruct H as (c & f & ? & _). discriminate.
    + intros H.
      destruct (decide (getProperties (getType d) = [])) as [Hprops|Hprops].
      * exists []. by apply generateBuilderFunc_no_props.
      * destruct H as [H|H]; [done|]. eexists.
        by apply generateBuilderFunc_union.
  - apply generateBuilderFunc_no_props.
  - apply generateBuilderFunc_union.
Qed.

Lemma C1_skip_conditions_witness :
  getProperties (getType petDecl) ≠ [] ∧
  isUnion (getType petDecl) = true ∧
  generateBuilderFunc petDecl =
    (["Skipped type generation for union: Pet"], Returned emptyResult).
Proof.
  assert (getProperties (getType petDecl) ≠ []) as H1 by discriminate.
  assert (isUnion (getType petDecl) = true) as H2 by reflexivity.
  split_and!; [exact H1|exact H2|].
  exact (proj2 (proj2 (C1_skip_conditions petDecl)) H1 H2).
Defined.

(** C1 fails for a union without common properties: the root type of
    [Contact] is a union, synthesis skips it, and no diagnostic is
    written. *)
Lemma C1_union_without_props_is_silent :
  isUnion (getType contactDecl) = true ∧
  generateBuilderFunc contactDecl = ([], Returned emptyResult) ∧
  ¬ ∃ msg, warnings (generateBuilderFunc contactDecl) = [msg].
Proof. split_and!; [reflexivity..|]. intros [msg H]. discriminate. Qed.

(** C2, as the code has it: synthesis throws exactly when the declaration
    has a property, its root type is not a union, and some property other
    than the discriminator tag has no value declaration; the mapper has no
    failing path, and a type that none of the eight predicates recognises
    is rendered as a composite, inside [DeepPartial<...>], not bare; for an
    array the predicates are those of the element type. *)
Theorem C2_failure_and_fallback (d : Declaration) (t : Type_) :
  ((∃ w e, generateBuilderFunc d = (w, Thrown e)) ↔
     getProperties (getType d) ≠ [] ∧ isUnion (getType d) = false ∧
     Exists (fun p => getValueDeclaration p = None)
       (nonTagProps (getProperties (getType d)))) ∧
  (isPrimitive t = false → getArrayElementType t = None →
     builderParameterTypeMapper t
       = "DeepPartial<" +:+ replaceImports (getText t) +:+ ">") ∧
  (∀ e, getArrayElementType t = Some e → isPrimitive e = false →
     builderParameterTypeMapper t
       = "DeepPartial<" +:+ replaceImports (getText e) +:+ ">[]").
Proof.
  split.
  - split.
    + intros (w & e & H).
      destruct (decide (getProperties (getType d) = [])) as [Hprops|Hprops].
      { by rewrite generateBuilderFunc_no_props in H. }
      destruct (isUnion (getType d)) eqn:Hunion.
      { by rewrite generateBuilderFunc_union in H. }
      split_and!; [done..|].
      destruct (firstMissing (getProperties (getType d))) as [p|] eqn:Hmiss.
      * apply firstMissing_Some in Hmiss as [Hin Hnone].
        apply Exists_exists. eauto.
      * destruct (generateBuilderFunc_builds d) as (c & f & E & _); [done..|].
        congruence.
    + intros (Hprops & Hunion & Hex).
      destruct (firstMissing (getProperties (getType d))) as [p|] eqn:Hmiss.
      * eexists _, _. by apply generateBuilderFunc_throws.
      * apply firstMissing_None in Hmiss. apply Exists_exists in Hex.
        destruct Hex as (p & Hin & Hnone).
        rewrite Forall_forall in Hmiss. destruct (Hmiss p Hin). congruence.
  - split.
    + intros Hprim Harr. unfold builderParameterTypeMapper, isArray.
      by rewrite Harr, Hprim.
    + intros e Harr Hprim. unfold builderParameterTypeMapper, isArray.
      rewrite Harr, Hprim. by string_norm.
Qed.

Lemma C2_failure_and_fallback_witness :
  (∃ w e, generateBuilderFunc flagsDecl = (w, Thrown e)) ∧
  builderParameterTypeMapper (plainType "unknown" []) = "DeepPartial<unknown>".
Proof.
  split.
  - apply (proj1 (C2_failure_and_fallback flagsDecl stringType)).
    split_and!; [discriminate|reflexivity|]. apply Exists_cons_hd. reflexivity.
  - apply (proj1 (proj2 (C2_failure_and_fallback emptyDecl
                           (plainType "unknown" []))));
      reflexivity.
Defined.

(** C2 fails twice: the property of [Flags] has no value declaration and
    synthesis throws; the type [unknown], which no predicate classifies, is
    not rendered bare. *)
Lemma C2_synthesis_can_throw :
  generateBuilderFunc flagsDecl
    = ([], Thrown (ValueDeclarationNotFound "debug")) ∧
  isPrimitive (plainType "unknown" []) = false ∧
  builderParameterTypeMapper (plainType "unknown" []) ≠ "unknown".
Proof. split_and!; [reflexivity..|discriminate]. Qed.

(** C3: a declaration that is not skipped, with N properties other than
    the discriminator tag, gets a class as soon as each of these properties
    has a value declaration; and whenever synthesis returns a class, its
    methods are N setters, one for each of these properties and in their
    order, followed by the tag-injection method and then the accessor:
    N + 2 methods. *)
Theorem C3_methods_of_the_class (d : Declaration) :
  getProperties (getType d) ≠ [] →
  isUnion (getType d) = false →
  (Forall (fun p => is_Some (getValueDeclaration p))
     (nonTagProps (getProperties (getType d))) →
   ∃ c f, generateBuilderFunc d
            = ([], Returned {| classObj := Some c; builderFunc := Some f |})) ∧
  (∀ w r c,
     generateBuilderFunc d = (w, Returned r) →
     classObj r = Some c →
     ∃ setters,
       class_methods c =
         setters
           ++ [includeTypenameMethod (getName d); getMethod "obj" (getName d)] ∧
       Forall2 (IsSetterFor (getName d +:+ "Builder"))
         (nonTagProps (getProperties (getType d))) setters ∧
       length setters = length (nonTagProps (getProperties (getType d))) ∧
       length (class_methods c)
         = length (nonTagProps (getProperties (getType d))) + 2).
Proof.
  intros Hprops Hunion. split.
  - intros Hall%firstMissing_None.
    destruct (generateBuilderFunc_builds d) as (c & f & E & _); [done..|].
    by exists c, f.
  - intros w r c H Hc.
    apply generateBuilderFunc_returned in H as [[-> _]|H]; [done|].
    destruct H as (c' & f & -> & _ & _ & _ & Hmiss & _ & Hm & _).
    simpl in Hc. injection Hc as ->.
    apply firstMissing_None in Hmiss.
    pose proof (settersOf_Forall2 (getName d +:+ "Builder") _ Hmiss) as Hall.
    exists (settersOf (getName d +:+ "Builder") (getProperties (getType d))).
    pose proof (Forall2_length _ _ _ Hall) as Hlen.
    split_and!; [done|done|done|].
    rewrite Hm. unfold methodsOf, builderClassName.
    rewrite length_app. simpl. lia.
Qed.

Lemma C3_methods_of_the_class_witness :
  (∃ c f, generateBuilderFunc userDecl
            = ([], Returned {| classObj := Some c; builderFunc := Some f |})) ∧
  ∃ setters,
    class_methods userClass =
      setters ++ [includeTypenameMethod "User"; getMethod "obj" "User"] ∧
    Forall2 (IsSetterFor "UserBuilder") (nonTagProps userProps) setters ∧
    length setters = 3 ∧
    length (class_methods userClass) = 3 + 2.
Proof.
  assert (getProperties (getType userDecl) ≠ []) as Hprops by discriminate.
  destruct (C3_methods_of_the_class userDecl Hprops eq_refl) as [Hbuilds Hshape].
  split.
  - apply Hbuilds. repeat constructor; by eexists.
  - apply (Hshape [] userResult userClass); reflexivity.
Defined.

(** ** The claims: the accepted type of a setter *)

(** C4, as the code has it: a constituent that renders as the bare [true]
    stands in the accepted type as [boolean], at its place; a constituent
    that renders as the bare [false] is dropped and stands for nothing;
    every other rendering is kept as it is.  So neither [true] nor [false]
    is ever an alternative of the accepted type. *)
Theorem C4_true_is_widened_false_is_dropped (type : Type_) :
  alternatives type =
    omap (fun t =>
            let r := builderParameterTypeMapper t in
            if decide (r = "false") then None
            else if decide (r = "true") then Some "boolean"
            else Some r)
         (constituents type) ∧
  parametersType type = join " | " (alternatives type) ∧
  ("true" ∉ alternatives type) ∧
  ("false" ∉ alternatives type) ∧
  (∀ t, t ∈ constituents type → builderParameterTypeMapper t = "true" →
        "boolean" ∈ alternatives type).
Proof.
  pose proof (alternatives_omap type) as Halt. unfold contribution in Halt.
  split_and!; [done|done|..].
  - rewrite alternatives_omap. intros (t & _ & H)%list_elem_of_omap.
    by apply contribution_neither in H as [? ?].
  - rewrite alternatives_omap. intros (t & _ & H)%list_elem_of_omap.
    by apply contribution_neither in H as [? ?].
  - intros t Hin Htrue. rewrite alternatives_omap. apply list_elem_of_omap.
    exists t. split; [done|]. unfold contribution. by rewrite Htrue.
Qed.

Lemma C4_true_is_widened_false_is_dropped_witness :
  "boolean" ∈ alternatives (literalType "true").
Proof.
  apply (proj2 (proj2 (proj2 (proj2
           (C4_true_is_widened_false_is_dropped (literalType "true")))))
           (literalType "true")).
  - apply list_elem_of_here.
  - reflexivity.
Defined.

(** C4 fails for [false]: a property of the literal type [false] has one
    constituent, which renders as the bare [false]; it is not widened, the
    accepted type is empty.  In [string | false] only [string] is left. *)
Lemma C4_false_is_not_widened :
  constituents (literalType "false") = [literalType "false"] ∧
  builderParameterTypeMapper (literalType "false") = "false" ∧
  alternatives (literalType "false") = [] ∧
  parametersType (literalType "false") ≠ "boolean" ∧
  parametersType (unionOf "string | false" [stringType; literalType "false"] [])
    = "string".
Proof. split_and!; [reflexivity..|discriminate|reflexivity]. Qed.

(** C5: for a property whose type is the union of the literals [true] and
    [false], in either order, the accepted type is exactly [boolean]: one
    alternative, no [false] left. *)
Theorem C5_true_or_false_is_boolean (type a b : Type_) :
  IsBooleanLiteral true a →
  IsBooleanLiteral false b →
  unionTypes type = Some [a; b] ∨ unionTypes type = Some [b; a] →
  alternatives type = ["boolean"] ∧ parametersType type = "boolean".
Proof.
  intros Ha%mapper_boolean_literal Hb%mapper_boolean_literal Hu.
  assert (alternatives type = ["boolean"]) as Halt.
  { rewrite alternatives_omap. unfold constituents, isUnion, getUnionTypes.
    destruct Hu as [-> | ->]; simpl; unfold contribution; by rewrite Ha, Hb. }
  split; [done|]. unfold parametersType. by rewrite Halt.
Qed.

Lemma C5_true_or_false_is_boolean_witness :
  alternatives booleanType = ["boolean"] ∧ parametersType booleanType = "boolean".
Proof.
  apply (C5_true_or_false_is_boolean booleanType
           (literalType "true") (literalType "false")).
  - repeat split.
  - repeat split.
  - right. reflexivity.
Defined.

(** ** The claims: the mapper *)

(** C6: for a constituent that is not an array, the mapper takes the text
    of the type, replaces every occurrence of the import pattern met from
    the left by [SchemaTypes], and wraps the result in [DeepPartial<...>]
    exactly when none of the eight predicates holds; otherwise the result
    stays bare.  Unless it reads [true] or [false], this rendering is one
    of the alternatives of the accepted type. *)
Theorem C6_non_array_rendering (t : Type_) :
  getArrayElementType t = None →
  let rewritten := replaceImports (getText t) in
  Rewrites (getText t) rewritten ∧
  (∀ out, Rewrites (getText t) out → out = rewritten) ∧
  (isPrimitive t = true ↔
     isString t = true ∨ isNumber t = true ∨ isLiteral t = true ∨
     isBoolean t = true ∨ isUndefined t = true ∨ isNull t = true ∨
     isAny t = true ∨ isEnum t = true) ∧
  (isPrimitive t = true → builderParameterTypeMapper t = rewritten) ∧
  (builderParameterTypeMapper t = "DeepPartial<" +:+ rewritten +:+ ">" ↔
     isPrimitive t = false) ∧
  (∀ type, t ∈ constituents type →
     builderParameterTypeMapper t ≠ "true" →
     builderParameterTypeMapper t ≠ "false" →
     builderParameterTypeMapper t ∈ alternatives type).
Proof.
  intros Harr rewritten.
  assert (builderParameterTypeMapper t =
            if isPrimitive t then rewritten
            else "DeepPartial<" +:+ rewritten +:+ ">") as Hmap.
  { unfold builderParameterTypeMapper, isArray. by rewrite Harr. }
  split_and!.
  - apply replaceImports_Rewrites.
  - apply Rewrites_replaceImports.
  - unfold isPrimitive. simpl.
    destruct (isString t), (isNumber t), (isLiteral t), (isBoolean t),
      (isUndefined t), (isNull t), (isAny t), (isEnum t); naive_solver.
  - intros H. by rewrite Hmap, H.
  - rewrite Hmap. destruct (isPrimitive t); split; try done.
    intros H. symmetry in H. by apply wrap_changes_text in H.
  - intros type. apply kept_in_alternatives.
Qed.

Lemma C6_non_array_rendering_witness :
  builderParameterTypeMapper importedFoo = "DeepPartial<SchemaTypes.Foo>" ∧
  builderParameterTypeMapper stringType = "string".
Proof.
  split.
  - apply (proj1 (proj2 (proj2 (proj2 (proj2
             (C6_non_array_rendering importedFoo eq_refl)))))).
    reflexivity.
  - apply (proj1 (proj2 (proj2 (proj2
             (C6_non_array_rendering stringType eq_refl))))).
    reflexivity.
Defined.

(** C7: for a constituent that is an array, the mapper reads the element
    type, once: the text and the eight predicates are those of the element
    type, whatever that type is; the element is rendered bare when one of
    the predicates holds and inside [DeepPartial<...>] otherwise, and the
    rendering of the constituent is that of the element followed by the
    array marker.  It is an alternative of the accepted type, the only one
    when the type of the property is not a union. *)
Theorem C7_array_rendering (t e : Type_) :
  getArrayElementType t = Some e →
  let rewritten := replaceImports (getText e) in
  let element :=
    if isPrimitive e then rewritten
    else "DeepPartial<" +:+ rewritten +:+ ">" in
  builderParameterTypeMapper t = element +:+ "[]" ∧
  (getArrayElementType e = None →
     builderParameterTypeMapper t = builderParameterTypeMapper e +:+ "[]") ∧
  (unionTypes t = None →
     alternatives t = [element +:+ "[]"] ∧
     parametersType t = element +:+ "[]") ∧
  (∀ type, t ∈ constituents type → (element +:+ "[]") ∈ alternatives type).
Proof.
  intros Harr rewritten element.
  assert (builderParameterTypeMapper t = element +:+ "[]") as Hmap.
  { unfold builderParameterTypeMapper, isArray. rewrite Harr.
    subst element rewritten. by destruct (isPrimitive e). }
  split_and!; [done|..].
  - intros He. rewrite Hmap. f_equal.
    unfold builderParameterTypeMapper, isArray. by rewrite He.
  - intros Hu.
    assert (alternatives t = [element +:+ "[]"]) as Halt.
    { rewrite alternatives_omap. unfold constituents, isUnion. rewrite Hu.
      simpl. unfold contribution. rewrite Hmap.
      destruct (array_suffix_not_boolean_literal element) as [Ht Hf].
      by rewrite !decide_False by done. }
    split; [done|]. unfold parametersType. by rewrite Halt.
  - intros type Hin. rewrite <- Hmap.
    destruct (array_suffix_not_boolean_literal element) as [Ht Hf].
    apply kept_in_alternatives; [done|by rewrite Hmap..].
Qed.

Lemma C7_array_rendering_witness :
  builderParameterTypeMapper (arrayOf importedFoo)
    = "DeepPartial<SchemaTypes.Foo>[]" ∧
  parametersType (arrayOf stringType) = "string[]".
Proof.
  split.
  - apply (proj1 (C7_array_rendering (arrayOf importedFoo) importedFoo eq_refl)).
  - apply (proj1 (proj2 (proj2 (C7_array_rendering (arrayOf stringType)
                                  stringType eq_refl))) eq_refl).
Defined.

(** The element type of an array of arrays is itself an array: the mapper
    does not read further down. *)
Example array_of_arrays :
  builderParameterTypeMapper (arrayOf (arrayOf (plainType "Foo" [])))
    = "DeepPartial<Foo[]>[]".
Proof. reflexivity. Qed.

(** C10: when every constituent of the type of a property renders as
    [false], no alternative is left and the accepted type is the empty
    text; the setter is emitted all the same, its type parameter bounded
    by nothing. *)
Theorem C10_all_false_gives_empty_type (d : Declaration) (w : list string)
    (r : BuilderResult) (c : ClassDeclarationStructure)
    (p : Symbol) (decl : Node) :
  generateBuilderFunc d = (w, Returned r) →
  classObj r = Some c →
  p ∈ getProperties (getType d) →
  sym_getName p ≠ "__typename" →
  getValueDeclaration p = Some decl →
  (∀ t, t ∈ constituents (getTypeAtLocation p decl) →
        builderParameterTypeMapper t = "false") →
  alternatives (getTypeAtLocation p decl) = [] ∧
  parametersType (getTypeAtLocation p decl) = "" ∧
  ∃ m, m ∈ class_methods c ∧
       m = setterMethod (getName d +:+ "Builder") (sym_getName p)
             (getTypeAtLocation p decl) ∧
       method_name m = "with" +:+ capitalizeFirstLetter (sym_getName p) ∧
       method_typeParameters m = ["P extends "].
Proof.
  intros H Hc Hin Hname Hdecl Hall.
  assert (alternatives (getTypeAtLocation p decl) = []) as Halt.
  { rewrite alternatives_omap.
    induction (constituents (getTypeAtLocation p decl)) as [|t l IH]; [done|].
    simpl. unfold contribution at 1.
    rewrite (Hall t) by left. simpl. apply IH.
    intros t' Ht'. apply Hall. by right. }
  assert (parametersType (getTypeAtLocation p decl) = "") as Hty
    by (unfold parametersType; by rewrite Halt).
  split_and!; [done..|].
  apply generateBuilderFunc_returned in H as [[-> _]|H]; [done|].
  destruct H as (c' & f & -> & _ & _ & _ & _ & _ & Hm & _).
  simpl in Hc. injection Hc as ->.
  eexists. split_and!; [|reflexivity|reflexivity|simpl; by rewrite Hty].
  rewrite Hm. unfold methodsOf, builderClassName, settersOf.
  apply elem_of_app. left. apply list_elem_of_omap. exists p. split.
  - apply list_elem_of_filter. done.
  - by rewrite Hdecl.
Qed.

Lemma C10_all_false_gives_empty_type_witness :
  alternatives (literalType "false") = [] ∧
  parametersType (literalType "false") = "" ∧
  ∃ m, m ∈ class_methods offClass ∧
       m = setterMethod "OffBuilder" "off" (literalType "false") ∧
       method_name m = "withOff" ∧
       method_typeParameters m = ["P extends "].
Proof.
  apply (C10_all_false_gives_empty_type offDecl [] offResult offClass
           (declaredProperty "off" (literalType "false"))
           {| typeAtLocation := literalType "false" |}).
  - reflexivity.
  - reflexivity.
  - apply list_elem_of_here.
  - discriminate.
  - reflexivity.
  - intros t Ht. apply list_elem_of_singleton in Ht as ->. reflexivity.
Defined.

(** ** The claims: the order in which declarations are visited *)

(** C8: the declarations are visited in two passes, first the top-level
    type aliases in the order of the file, then the top-level interfaces in
    the order of the file, wherever they stand in the source; the classes
    pushed and the warnings written follow that order.  An empty file gives
    an empty sequence and nothing is thrown. *)
Theorem C8_aliases_then_interfaces (sf : SourceFile) :
  let aliases := getTypeAliases sf in
  let interfaces := getInterfaces sf in
  DeclStatement <$> aliases
    = filter (fun s => statementHasKind TypeAliasDeclaration s = true) sf ∧
  DeclStatement <$> interfaces
    = filter (fun s => statementHasKind InterfaceDeclaration s = true) sf ∧
  generateBuilders sf = forEachDeclaration (aliases ++ interfaces) [] ∧
  (∀ w l, generateBuilders sf = (w, Returned l) →
     (fun cf => class_name cf.1) <$> l
       = builderClassName
           <$> filter (fun d => isBuilt d = true) (aliases ++ interfaces) ∧
     w = unionWarning
           <$> filter (fun d => isWarned d = true) (aliases ++ interfaces)) ∧
  getTypeAliases [] ++ getInterfaces [] = [] ∧
  generateBuilders [] = ([], Returned []).
Proof.
  intros aliases interfaces.
  assert (generateBuilders sf = forEachDeclaration (aliases ++ interfaces) [])
    as Hgen.
  { unfold generateBuilders. by rewrite forEachDeclaration_app. }
  split_and!.
  - apply declarations_in_file_order.
  - apply declarations_in_file_order.
  - done.
  - intros w l H. rewrite Hgen in H.
    apply forEachDeclaration_returned in H as (l' & -> & Hn & ->). done.
  - done.
  - done.
Qed.

Lemma C8_aliases_then_interfaces_witness :
  (fun cf => class_name cf.1) <$> sampleOutput
    = ["UserBuilder"; "AccountBuilder"] ∧
  warnings (generateBuilders sampleFile)
    = ["Skipped type generation for union: Pet"].
Proof.
  destruct (proj1 (proj2 (proj2 (proj2 (C8_aliases_then_interfaces sampleFile))))
              ["Skipped type generation for union: Pet"] sampleOutput eq_refl)
    as [Hnames Hwarn].
  split; [exact Hnames|reflexivity].
Defined.

(** ** The claims: the discriminator tag *)

(** C9: in the class built for a declaration, every method other than the
    two fixed ones is the setter of a property whose name is not
    [__typename], and no method is called [with__typename]; the
    tag-injection method is there, and calling it on any accumulator, with
    any argument, leaves the accumulator with the name of the declaration
    in its field [__typename]. *)
Theorem C9_tag_has_no_setter_and_is_stamped (d : Declaration)
    (w : list string) (r : BuilderResult) (c : ClassDeclarationStructure) :
  generateBuilderFunc d = (w, Returned r) →
  classObj r = Some c →
  (∀ m, m ∈ class_methods c →
     (∃ p, p ∈ getProperties (getType d) ∧ sym_getName p ≠ "__typename" ∧
           IsSetterFor (getName d +:+ "Builder") p m) ∨
     m = includeTypenameMethod (getName d) ∨
     m = getMethod "obj" (getName d)) ∧
  (∀ m, m ∈ class_methods c → method_name m ≠ "with__typename") ∧
  includeTypenameMethod (getName d) ∈ class_methods c ∧
  (plainText (getName d) = true →
   ∀ (val : Value) (obj : gmap string Value),
     callMethod (includeTypenameMethod (getName d)) val obj
       = Some (<["__typename" := VString (getName d)]> obj) ∧
     (<["__typename" := VString (getName d)]> obj) !! "__typename"
       = Some (VString (getName d))).
Proof.
  intros H Hc. apply generateBuilderFunc_returned in H as [[-> _]|H]; [done|].
  destruct H as (c' & f & -> & _ & _ & _ & _ & _ & Hm & _).
  simpl in Hc. injection Hc as ->. rewrite Hm.
  split_and!.
  - apply methodsOf_cases.
  - intros m [(p & _ & Hname & decl & _ & ->)|[-> | ->]]%methodsOf_cases;
      [|discriminate..].
    simpl. change "with__typename" with ("with" +:+ "__typename").
    intros E%(inj (String.append "with")).
    by apply capitalizeFirstLetter_typename in E.
  - unfold methodsOf. apply elem_of_app. right. left.
  - intros Hplain val obj. split.
    + by apply callMethod_includeTypename.
    + apply lookup_insert_eq.
Qed.

Lemma C9_tag_has_no_setter_and_is_stamped_witness :
  method_name <$> class_methods userClass
    = ["withName"; "withFriend"; "withTags"; "includeTypename"; "get"] ∧
  callMethod (includeTypenameMethod "User") (VOther 0)
      {[ "__typename" := VString "Admin"; "name" := VOther 1 ]}
    = Some (<["__typename" := VString "User"]>
              {[ "__typename" := VString "Admin"; "name" := VOther 1 ]}).
Proof.
  split; [reflexivity|].
  apply (proj2 (proj2 (proj2
           (C9_tag_has_no_setter_and_is_stamped userDecl [] userResult
              userClass eq_refl eq_refl))) eq_refl).
Defined.

(** * Part V: further properties of the code *)

(** ** What [generateBuilderFunc] returns and how it fails *)

Section SynthesisOutcome.

Lemma generateBuilderFunc_builds_fields (d : Declaration) :
  getProperties (getType d) ≠ [] →
  isUnion (getType d) = false →
  firstMissing (getProperties (getType d)) = None →
  ∃ c f,
    generateBuilderFunc d
      = ([], Returned {| classObj := Some c; builderFunc := Some f |}) ∧
    class_name c = builderClassName d ∧
    class_methods c = methodsOf d ∧
    class_isExported c = true ∧
    func_name f = "a" +:+ builderClassName d ∧
    func_returnType f = builderClassName d ∧
    func_isExported f = true.
Proof.
  intros Hprops Hunion Hmiss. unfold generateBuilderFunc.
  rewrite settersLoop_eq, Hmiss, Hunion.
  destruct (getProperties (getType d)) eqn:E; [done|]. simpl.
  eexists _, _. split; [reflexivity|]. simpl. unfold methodsOf.
  rewrite E. by rewrite <- app_assoc.
Qed.

Lemma generateBuilderFunc_thrown_silent (d : Declaration) (w : list string)
    (e : Exn) :
  generateBuilderFunc d = (w, Thrown e) →
  w = [] ∧ getProperties (getType d) ≠ [] ∧ isUnion (getType d) = false ∧
  ∃ p, firstMissing (getProperties (getType d)) = Some p ∧
       e = ValueDeclarationNotFound (sym_getName p).
Proof.
  intros H.
  destruct (decide (getProperties (getType d) = [])) as [Hprops|Hprops].
  { by rewrite generateBuilderFunc_no_props in H. }
  destruct (isUnion (getType d)) eqn:Hunion.
  { by rewrite generateBuilderFunc_union in H. }
  destruct (firstMissing (getProperties (getType d))) as [p|] eqn:Hmiss.
  - rewrite (generateBuilderFunc_throws d p) in H by done.
    injection H as <- <-. split_and!; [done..|]. by exists p.
  - destruct (generateBuilderFunc_builds d) as (c & f & E & _); [done..|].
    congruence.
Qed.

(** X1: the object returned by [generateBuilderFunc] has both a class and
    a factory or neither of them; a warning is written only with the empty
    object, and never more than one. *)
Theorem result_has_both_or_neither (d : Declaration) (w : list string)
    (r : BuilderResult) :
  generateBuilderFunc d = (w, Returned r) →
  (classObj r = None ∧ builderFunc r = None ∧ (length w ≤ 1)%nat) ∨
  (is_Some (classObj r) ∧ is_Some (builderFunc r) ∧ w = []).
Proof.
  intros H.
  destruct (decide (getProperties (getType d) = [])) as [Hprops|Hprops].
  { rewrite generateBuilderFunc_no_props in H by done.
    injection H as <- <-. left. simpl. split_and!; [done..|lia]. }
  destruct (isUnion (getType d)) eqn:Hunion.
  { rewrite generateBuilderFunc_union in H by done.
    injection H as <- <-. left. simpl. split_and!; [done..|lia]. }
  apply generateBuilderFunc_returned in H as [[_ [?|?]]|H]; [done|congruence|].
  destruct H as (c & f & -> & -> & _). right. simpl. eauto.
Qed.

Lemma result_has_both_or_neither_witness :
  (classObj userResult = None ∧ builderFunc userResult = None ∧
     (length (@nil string) ≤ 1)%nat) ∨
  (is_Some (classObj userResult) ∧ is_Some (builderFunc userResult) ∧
     @nil string = []).
Proof.
  apply (result_has_both_or_neither userDecl [] userResult). reflexivity.
Defined.

(** X2: in what is built for a declaration the names agree: the class is
    the declaration name followed by [Builder], the factory is [a] followed
    by the class name and returns the class; every setter is called [with]
    followed by the capitalised name of a property and returns the class,
    the tag-injection method has no return type, and [get] returns the
    declared type under [SchemaTypes]. *)
Theorem built_names_agree (d : Declaration) (w : list string)
    (r : BuilderResult) (c : ClassDeclarationStructure)
    (f : FunctionDeclarationStructure) :
  generateBuilderFunc d = (w, Returned r) →
  classObj r = Some c →
  builderFunc r = Some f →
  class_name c = getName d +:+ "Builder" ∧
  func_name f = "a" +:+ class_name c ∧
  func_returnType f = class_name c ∧
  (∀ m, m ∈ class_methods c →
     (∃ p, p ∈ getProperties (getType d) ∧
           method_name m = "with" +:+ capitalizeFirstLetter (sym_getName p) ∧
           method_returnType m = Some (class_name c)) ∨
     (method_name m = "includeTypename" ∧ method_returnType m = None) ∨
     (method_name m = "get" ∧
      method_returnType m = Some ("SchemaTypes." +:+ getName d))).
Proof.
  intros H Hc Hf.
  destruct (decide (getProperties (getType d) = [])) as [Hprops|Hprops].
  { rewrite generateBuilderFunc_no_props in H by done. by injection H as <- <-. }
  destruct (isUnion (getType d)) eqn:Hunion.
  { rewrite generateBuilderFunc_union in H by done. by injection H as <- <-. }
  destruct (firstMissing (getProperties (getType d))) as [p|] eqn:Hmiss.
  { rewrite (generateBuilderFunc_throws d p) in H by done. discriminate. }
  destruct (generateBuilderFunc_builds_fields d Hprops Hunion Hmiss)
    as (c' & f' & E & Hcn & Hm & _ & Hfn & Hfr & _).
  rewrite E in H. injection H as <- <-. simpl in Hc, Hf.
  injection Hc as <-. injection Hf as <-.
  rewrite Hcn, Hfn, Hfr, Hm. unfold builderClassName. split_and!; [done..|].
  intros m [(p & Hp & _ & decl & _ & ->)|[-> | ->]]%methodsOf_cases.
  - left. exists p. by split_and!.
  - right. left. done.
  - right. right. done.
Qed.

Lemma built_names_agree_witness :
  class_name userClass = "UserBuilder" ∧
  func_name userFactory = "a" +:+ class_name userClass ∧
  func_returnType userFactory = class_name userClass ∧
  (∀ m, m ∈ class_methods userClass →
     (∃ p, p ∈ userProps ∧
           method_name m = "with" +:+ capitalizeFirstLetter (sym_getName p) ∧
           method_returnType m = Some (class_name userClass)) ∨
     (method_name m = "includeTypename" ∧ method_returnType m = None) ∨
     (method_name m = "get" ∧ method_returnType m = Some "SchemaTypes.User")).
Proof.
  apply (built_names_agree userDecl [] userResult userClass userFactory);
    reflexivity.
Defined.

(** X3: when [generateBuilderFunc] throws, nothing has been written to the
    console, the root type is not a union, and the exception names the
    first property, in the order of the declaration, that is not the
    discriminator tag and has no value declaration; a tag without a value
    declaration is passed over. *)
Theorem throw_names_first_unresolved_property (d : Declaration)
    (w : list string) (e : Exn) :
  generateBuilderFunc d = (w, Thrown e) →
  w = [] ∧
  isUnion (getType d) = false ∧
  ∃ before p after,
    getProperties (getType d) = before ++ p :: after ∧
    e = ValueDeclarationNotFound (sym_getName p) ∧
    sym_getName p ≠ "__typename" ∧
    getValueDeclaration p = None ∧
    Forall (fun q => sym_getName q = "__typename" ∨
                     is_Some (getValueDeclaration q)) before.
Proof.
  intros (-> & _ & Hunion & p & Hmiss & ->)%generateBuilderFunc_thrown_silent.
  split_and!; [done..|].
  pose proof (firstMissing_Some _ _ Hmiss) as [Hin Hnone].
  apply list_elem_of_filter in Hin as [Hname _].
  unfold firstMissing, nonTagProps in Hmiss.
  rewrite list_filter_filter in Hmiss.
  apply head_filter_Some in Hmiss as (before & after & -> & Hbefore).
  exists before, p, after. split_and!; [done..|].
  eapply Forall_impl; [exact Hbefore|]. intros q Hq. simpl in Hq.
  destruct (decide (sym_getName q = "__typename")); [by left|].
  right. destruct (getValueDeclaration q); [done|]. by destruct Hq.
Qed.

Lemma throw_names_first_unresolved_property_witness :
  @nil string = [] ∧
  isUnion (getType partialDecl) = false ∧
  ∃ before p after,
    getProperties (getType partialDecl) = before ++ p :: after ∧
    ValueDeclarationNotFound "id" = ValueDeclarationNotFound (sym_getName p) ∧
    sym_getName p ≠ "__typename" ∧
    getValueDeclaration p = None ∧
    Forall (fun q => sym_getName q = "__typename" ∨
                     is_Some (getValueDeclaration q)) before.
Proof.
  apply (throw_names_first_unresolved_property partialDecl []
           (ValueDeclarationNotFound "id")).
  reflexivity.
Defined.

End SynthesisOutcome.

(** ** One failing declaration stops [generateBuilders] *)

Section Propagation.

Lemma generateBuilderFunc_warnings (d : Declaration) :
  warnings (generateBuilderFunc d)
    = if isWarned d then [unionWarning d] else [].
Proof.
  destruct (decide (getProperties (getType d) = [])) as [Hprops|Hprops].
  { destruct (flags_no_props d Hprops) as [_ ->].
    by rewrite generateBuilderFunc_no_props. }
  destruct (isUnion (getType d)) eqn:Hunion.
  { destruct (flags_union d Hprops Hunion) as [_ ->].
    by rewrite generateBuilderFunc_union. }
  destruct (flags_record d Hprops Hunion) as [_ ->].
  destruct (firstMissing (getProperties (getType d))) as [p|] eqn:Hmiss.
  - by rewrite (generateBuilderFunc_throws d p).
  - destruct (generateBuilderFunc_builds d) as (c & f & -> & _); done.
Qed.

Lemma filter_isWarned_cons (d : Declaration) (decls : list Declaration) :
  unionWarning <$> filter (fun d => isWarned d = true) (d :: decls)
    = (if isWarned d then [unionWarning d] else [])
        ++ (unionWarning <$> filter (fun d => isWarned d = true) decls).
Proof.
  destruct (isWarned d) eqn:E.
  - by rewrite filter_cons_True by done.
  - by rewrite filter_cons_False by congruence.
Qed.

Lemma forEachDeclaration_step (d : Declaration) (decls : list Declaration)
    (acc : list ClassAndFactory) (w : list string) (r : BuilderResult) :
  generateBuilderFunc d = (w, Returned r) →
  ∃ acc', forEachDeclaration (d :: decls) acc
          = let '(w', o) := forEachDeclaration decls acc' in (w ++ w', o).
Proof.
  intros E. rewrite forEachDeclaration_cons, E, bind_returned.
  destruct (classObj r), (builderFunc r); eauto.
Qed.

Lemma forEachDeclaration_thrown (decls : list Declaration)
    (acc : list ClassAndFactory) (w : list string) (e : Exn) :
  forEachDeclaration decls acc = (w, Thrown e) →
  ∃ before d after,
    decls = before ++ d :: after ∧
    Forall (fun d => ¬ raises d) before ∧
    generateBuilderFunc d = ([], Thrown e) ∧
    w = unionWarning <$> filter (fun d => isWarned d = true) before.
Proof.
  revert acc w. induction decls as [|d decls IH]; intros acc w H; [done|].
  pose proof (generateBuilderFunc_warnings d) as Hw.
  destruct (generateBuilderFunc d) as [w0 [r|e0]] eqn:E.
  - destruct (forEachDeclaration_step d decls acc w0 r E) as [acc' Hstep].
    rewrite Hstep in H.
    destruct (forEachDeclaration decls acc') as [w' o] eqn:E'.
    injection H as <- ->.
    apply IH in E' as (before & d' & after & -> & Hall & Hd' & ->).
    exists (d :: before), d', after. split_and!; [done| |done|].
    + constructor; [|done]. intros (w1 & e1 & H1). congruence.
    + rewrite filter_isWarned_cons. simpl in Hw. by rewrite Hw.
  - rewrite forEachDeclaration_cons, E, bind_thrown in H.
    injection H as <- <-. simpl in Hw.
    assert (w0 = []) as ->.
    { by apply generateBuilderFunc_thrown_silent in E as [-> _]. }
    exists [], d, decls. split_and!; [done|constructor|done|done].
Qed.

Lemma forEachDeclaration_returns (decls : list Declaration)
    (acc : list ClassAndFactory) :
  Forall (fun d => ¬ raises d) decls →
  ∃ w l, forEachDeclaration decls acc = (w, Returned l).
Proof.
  intros Hall. destruct (forEachDeclaration decls acc) as [w [l|e]] eqn:E;
    [eauto|].
  apply forEachDeclaration_thrown in E
    as (before & d & after & -> & _ & Hd & _).
  apply Forall_app in Hall as [_ Hall]. apply Forall_cons in Hall as [Hno _].
  destruct Hno. by exists [], e.
Qed.

Lemma forEachDeclaration_returned_none_raises (decls : list Declaration)
    (acc : list ClassAndFactory) (w : list string) (l : list ClassAndFactory) :
  forEachDeclaration decls acc = (w, Returned l) →
  Forall (fun d => ¬ raises d) decls.
Proof.
  intros H. apply Forall_forall. intros d Hin (w1 & e1 & Hd).
  apply list_elem_of_split in Hin as (l1 & l2 & ->).
  rewrite forEachDeclaration_app in H.
  destruct (forEachDeclaration l1 acc) as [w0 [acc'|e0]]; [|done].
  rewrite bind_returned, forEachDeclaration_cons, Hd, bind_thrown in H.
  discriminate.
Qed.

Lemma generateBuilders_as_one_loop (sf : SourceFile) :
  generateBuilders sf
    = forEachDeclaration (getTypeAliases sf ++ getInterfaces sf) [].
Proof. unfold generateBuilders. by rewrite forEachDeclaration_app. Qed.

(** X4: [generateBuilders] returns its list exactly when no declaration it
    visits makes [generateBuilderFunc] throw.  Otherwise it throws what the
    first such declaration throws, in the order type aliases then
    interfaces: the classes built before are lost, and the console holds
    the warnings of the declarations visited before it. *)
Theorem generateBuilders_stops_at_first_failure (sf : SourceFile) :
  let decls := getTypeAliases sf ++ getInterfaces sf in
  ((∃ w l, generateBuilders sf = (w, Returned l)) ↔
     Forall (fun d => ¬ raises d) decls) ∧
  (∀ w e, generateBuilders sf = (w, Thrown e) →
     ∃ before d after,
       decls = before ++ d :: after ∧
       Forall (fun d => ¬ raises d) before ∧
       generateBuilderFunc d = ([], Thrown e) ∧
       w = unionWarning <$> filter (fun d => isWarned d = true) before).
Proof.
  intros decls. subst decls. rewrite generateBuilders_as_one_loop. split.
  - split.
    + intros (w & l & H). by eapply forEachDeclaration_returned_none_raises.
    + apply forEachDeclaration_returns.
  - intros w e. apply forEachDeclaration_thrown.
Qed.

Lemma generateBuilders_stops_at_first_failure_witness :
  ∃ before d after,
    getTypeAliases failingFile ++ getInterfaces failingFile
      = before ++ d :: after ∧
    Forall (fun d => ¬ raises d) before ∧
    generateBuilderFunc d = ([], Thrown (ValueDeclarationNotFound "id")) ∧
    ["Skipped type generation for union: Pet"]
      = unionWarning <$> filter (fun d => isWarned d = true) before.
Proof.
  apply (proj2 (generateBuilders_stops_at_first_failure failingFile)
           ["Skipped type generation for union: Pet"]
           (ValueDeclarationNotFound "id")).
  reflexivity.
Defined.

End Propagation.

(** ** Names of setters *)

Section SetterNames.









End SetterNames.

(** ** The accepted type as a text *)

Section AcceptedText.

Lemma append_eq_nil (s t : string) : s +:+ t = "" → s = "" ∧ t = "".
Proof. destruct s; [by rewrite append_nil_l|discriminate]. Qed.

Lemma join_eq_nil (sep : string) (l : list string) :
  sep ≠ "" → join sep l = "" ↔ l = [] ∨ l = [""].
Proof.
  intros Hsep. destruct l as [|x [|y l]]; simpl.
  - naive_solver.
  - naive_solver.
  - split; [|naive_solver].
    intros [_ [? _]%append_eq_nil]%append_eq_nil. done.
Qed.

Lemma omap_eq_nil {A B} (f : A → option B) (l : list A) :
  omap f l = [] ↔ ∀ x, x ∈ l → f x = None.
Proof.
  induction l as [|a l IH]; simpl.
  - split; [|done]. intros _ x Hx. by apply not_elem_of_nil in Hx.
  - destruct (f a) eqn:E.
    + split; [done|]. intros H. specialize (H a (list_elem_of_here _ _)).
      congruence.
    + rewrite IH. split.
      * intros H x [->|Hx]%elem_of_cons; auto.
      * intros H x Hx. apply H. by right.
Qed.

(** X7: the accepted type of a setter is the empty text exactly when no
    alternative is left or the only one left is the empty text; and no
    alternative is left exactly when every constituent renders as
    [false]. *)
Theorem accepted_type_empty_iff (type : Type_) :
  (parametersType type = "" ↔
     alternatives type = [] ∨ alternatives type = [""]) ∧
  (alternatives type = [] ↔
     ∀ t, t ∈ constituents type → builderParameterTypeMapper t = "false").
Proof.
  split.
  - unfold parametersType. by apply join_eq_nil.
  - rewrite alternatives_omap, omap_eq_nil. unfold contribution.
    split; intros H t Ht; specialize (H t Ht); repeat case_decide; done.
Qed.

Lemma lowerString_import (kw : string) :
  lowerString kw = "import" → noQuote kw ∧ String.length kw = 6.
Proof.
  assert (∀ c k, toLowerCase c = k → k ≠ quote → c ≠ quote) as Hq.
  { intros c k <- Hk ->. by apply Hk. }
  destruct kw as [|c1 [|c2 [|c3 [|c4 [|c5 [|c6 [|c7 kw]]]]]]]; try done.
  simpl. intros [= H1 H2 H3 H4 H5 H6].
  split; [|done].
  split_and!; try done; eapply Hq; try eassumption; done.
Qed.

(** The text before the first double quote. *)
Lemma first_quote_unique (a a' b b' : string) :
  noQuote a → noQuote a' →
  a +:+ String quote b = a' +:+ String quote b' → a = a'.
Proof.
  revert a'. induction a as [|c a IH]; intros [|c' a'] Ha Ha' E.
  - done.
  - rewrite append_nil_l, append_cons in E. injection E as <- _.
    by destruct Ha' as [? _].
  - rewrite append_nil_l, append_cons in E. injection E as -> _.
    by destruct Ha as [? _].
  - rewrite !append_cons in E. injection E as <- E.
    f_equal. apply (IH a'); [apply Ha|apply Ha'|done].
Qed.

Lemma IsImportRef_first_quote (m : string) :
  IsImportRef m →
  ∃ a b, m = a +:+ String quote b ∧ noQuote a ∧ String.length a = 7.
Proof.
  intros (kw & p & [Hkw Hlen]%lowerString_import & Hp & ->).
  exists (kw +:+ "("), (p +:+ String quote ")"). split_and!.
  - by string_norm.
  - apply noQuote_append. split; [done|]. simpl. split; [discriminate|done].
  - rewrite length_append, Hlen. done.
Qed.

Lemma no_match_before_reference (c : ascii) (pre m suffix : string) :
  noQuote (String c pre) → IsImportRef m →
  matchImport (String c pre +:+ m +:+ suffix) = None.
Proof.
  intros Hpre Hm. apply matchImport_None. intros m' rest Hm' E.
  apply IsImportRef_first_quote in Hm as (a & b & -> & Ha & Hla).
  apply IsImportRef_first_quote in Hm' as (a' & b' & -> & Ha' & Hla').
  assert (String c pre +:+ a = a') as Heq.
  { apply (first_quote_unique _ _ (b +:+ suffix) (b' +:+ rest)).
    - by apply noQuote_append.
    - done.
    - revert E. string_norm. by intros <-. }
  apply (f_equal String.length) in Heq. rewrite length_append in Heq.
  simpl in Heq. lia.
Qed.

(** X8: a reference to a module, written with the keyword in any case
    and a path without a double quote, that comes after a text without a
    double quote is replaced by [SchemaTypes]: the text before it is kept
    and the scan goes on right after it; when the text after it has no
    double quote either, that text is kept too. *)
Theorem reference_becomes_alias (prefix m suffix : string) :
  IsImportRef m → noQuote prefix →
  replaceImports (prefix +:+ m +:+ suffix)
    = prefix +:+ "SchemaTypes" +:+ replaceImports suffix ∧
  (noQuote suffix →
   replaceImports (prefix +:+ m +:+ suffix)
     = prefix +:+ "SchemaTypes" +:+ suffix).
Proof.
  intros Hm Hpre.
  assert (replaceImports (prefix +:+ m +:+ suffix)
          = prefix +:+ "SchemaTypes" +:+ replaceImports suffix) as Hgo.
  { induction prefix as [|c pre IH].
    - rewrite !append_nil_l.
      by rewrite (replaceImports_match (m +:+ suffix) suffix)
        by (apply matchImport_spec; eauto).
    - pose proof (no_match_before_reference c pre m suffix Hpre Hm) as Hno.
      rewrite !append_cons in *. rewrite replaceImports_copy by done.
      rewrite IH; [done|apply Hpre]. }
  split; [done|]. intros Hsuf. by rewrite Hgo, replaceImports_noQuote.
Qed.

Lemma reference_becomes_alias_witness :
  replaceImports
    ("Maybe<" +:+ ("Import(" +:+ String quote "/app/schema" +:+ String quote ")")
       +:+ ".User>")
    = "Maybe<SchemaTypes.User>".
Proof.
  apply (reference_becomes_alias "Maybe<"
           ("Import(" +:+ String quote "/app/schema" +:+ String quote ")")
           ".User>").
  - exists "Import", "/app/schema". split_and!; [reflexivity| |reflexivity].
    simpl. repeat split; discriminate.
  - simpl. repeat split; discriminate.
  - simpl. repeat split; discriminate.
Defined.

(** X9: for a property whose type is neither a union nor an array and
    whose text has no double quote, the accepted type is the text itself
    when one of the eight predicates holds and the text is not [true] or
    [false], and the text inside [DeepPartial<...>] when none holds. *)
Theorem plain_type_accepted_as_written (t : Type_) :
  unionTypes t = None →
  getArrayElementType t = None →
  noQuote (getText t) →
  (isPrimitive t = true → getText t ≠ "true" → getText t ≠ "false" →
     parametersType t = getText t) ∧
  (isPrimitive t = false →
     parametersType t = "DeepPartial<" +:+ getText t +:+ ">").
Proof.
  intros Hu Harr Hq.
  assert (builderParameterTypeMapper t =
            if isPrimitive t then getText t
            else "DeepPartial<" +:+ getText t +:+ ">") as Hmap.
  { unfold builderParameterTypeMapper, isArray.
    by rewrite Harr, replaceImports_noQuote. }
  assert (alternatives t = omap contribution [t]) as Halt.
  { rewrite alternatives_omap. unfold constituents, isUnion. by rewrite Hu. }
  unfold parametersType. rewrite Halt. simpl. split.
  - intros Hp Ht Hf. rewrite Hp in Hmap.
    by rewrite contribution_kept by (by rewrite Hmap).
  - intros Hp. rewrite Hp in Hmap.
    rewrite contribution_kept; rewrite Hmap; [done|..];
      string_norm; discriminate.
Qed.

Lemma plain_type_accepted_as_written_witness :
  parametersType stringType = "string" ∧
  parametersType (plainType "Foo" []) = "DeepPartial<Foo>".
Proof.
  split.
  - apply (proj1 (plain_type_accepted_as_written stringType eq_refl eq_refl
                    ltac:(simpl; repeat split; discriminate)));
      [reflexivity|discriminate..].
  - apply (proj2 (plain_type_accepted_as_written (plainType "Foo" []) eq_refl
                    eq_refl ltac:(simpl; repeat split; discriminate))).
    reflexivity.
Defined.

End AcceptedText.

(** ** The setters at run time *)

Section SettersAtRunTime.












End SettersAtRunTime.

(** ** From the source file to the files written *)

Section Files.

Variable path_join : string → string → string.
Variable path_basename : string → string.
Variable path_basename_ext : string → string → string.
Variable path_extname : string → string.
Variables inputFilePath outputFilePath : string.

Let indexFile : string := path_join outputFilePath "index.ts".
Let outFile (name : string) : string :=
  path_join outputFilePath (name +:+ ".ts").







(** X14: when some declaration of the source file makes synthesis throw,
    [generateBuilders] throws after it has created the output directory
    and the index file in the project: no file is saved, the index exports
    nothing, no promise is made and nothing is copied. *)
Theorem nothing_written_on_failure (sf : SourceFile) :
  Exists raises (getTypeAliases sf ++ getInterfaces sf) →
  ∃ w e,
    runGenerateBuilders path_join path_basename path_basename_ext path_extname
      inputFilePath outputFilePath sf
      = ([CreateDirectory outputFilePath; CreateSourceFile indexFile],
         w, Thrown e) ∧
    savedPaths [CreateDirectory outputFilePath; CreateSourceFile indexFile]
      = [] ∧
    exportedModules [CreateDirectory outputFilePath; CreateSourceFile indexFile]
      = [].
Proof.
  intros Hex. unfold runGenerateBuilders.
  destruct (generateBuilders sf) as [w [cfs|e]] eqn:E.
  - exfalso. rewrite generateBuilders_as_one_loop in E.
    apply forEachDeclaration_returned_none_raises in E.
    apply Exists_exists in Hex as (d & Hd & Hr).
    rewrite Forall_forall in E. by apply (E d).
  - by exists w, e.
Qed.

End Files.


Lemma nothing_written_on_failure_witness :
  ∃ w e,
    runGenerateBuilders (fun a b => a +:+ "/" +:+ b) (fun p => p)
      (fun p ext => "schema") (fun p => ".ts") "schema.ts" "out" failingFile
      = ([CreateDirectory "out"; CreateSourceFile "out/index.ts"], w, Thrown e) ∧
    savedPaths [CreateDirectory "out"; CreateSourceFile "out/index.ts"] = [] ∧
    exportedModules [CreateDirectory "out"; CreateSourceFile "out/index.ts"]
      = [].
Proof.
  apply (nothing_written_on_failure (fun a b => a +:+ "/" +:+ b) (fun p => p)
           (fun p ext => "schema") (fun p => ".ts") "schema.ts" "out"
           failingFile).
  apply Exists_exists. exists partialDecl. split.
  - vm_compute. do 2 right. left.
  - exists [], (ValueDeclarationNotFound "id"). reflexivity.
Defined.

(** ** The methods of a class, by name and in a chain *)

Section Chains.

Lemma filter_none {A} (P : A → Prop) `{!∀ x, Decision (P x)} (l : list A) :
  (∀ x, x ∈ l → ¬ P x) → filter P l = [].
Proof.
  induction l as [|a l IH]; intros Hno; [done|].
  rewrite filter_cons_False by (apply Hno; left).
  apply IH. intros x Hx. apply Hno. by right.
Qed.

Lemma setter_name_not_fixed (className name : string) (type : Type_) :
  method_name (setterMethod className name type) ≠ "get" ∧
  method_name (setterMethod className name type) ≠ "includeTypename".
Proof. simpl. split; string_norm; discriminate. Qed.

Lemma settersOf_are_setters (className : string) (props : list Symbol)
    (m : MethodDeclarationStructure) :
  m ∈ settersOf className props →
  ∃ name type, m = setterMethod className name type.
Proof.
  unfold settersOf. intros (p & _ & Hm)%list_elem_of_omap.
  destruct (getValueDeclaration p); [|done]. simpl in Hm.
  injection Hm as <-. eauto.
Qed.

(** X15: whatever the properties are called, a class that is built has
    exactly one method named [get] and exactly one named
    [includeTypename], the two fixed ones: no setter takes these names. *)
Theorem fixed_methods_are_not_shadowed (d : Declaration) (w : list string)
    (r : BuilderResult) (c : ClassDeclarationStructure) :
  generateBuilderFunc d = (w, Returned r) →
  classObj r = Some c →
  filter (fun m => method_name m = "get") (class_methods c)
    = [getMethod "obj" (getName d)] ∧
  filter (fun m => method_name m = "includeTypename") (class_methods c)
    = [includeTypenameMethod (getName d)].
Proof.
  intros H Hc. apply generateBuilderFunc_returned in H as [[-> _]|H]; [done|].
  destruct H as (c' & f & -> & _ & _ & _ & _ & _ & Hm & _).
  simpl in Hc. injection Hc as ->. rewrite Hm. unfold methodsOf.
  rewrite !filter_app.
  rewrite !(filter_none _ (settersOf _ _)).
  - split; reflexivity.
  - intros m (name & type & ->)%settersOf_are_setters.
    apply setter_name_not_fixed.
  - intros m (name & type & ->)%settersOf_are_setters.
    apply setter_name_not_fixed.
Qed.

Lemma fixed_methods_are_not_shadowed_witness :
  filter (fun m => method_name m = "get") (class_methods userClass)
    = [getMethod "obj" "User"] ∧
  filter (fun m => method_name m = "includeTypename") (class_methods userClass)
    = [includeTypenameMethod "User"].
Proof.
  apply (fixed_methods_are_not_shadowed userDecl [] userResult userClass);
    reflexivity.
Defined.





End Chains.
